(** * angles_to_config/types.h: data types of the distortion-mesh tool

    A shallow embedding of the value types declared in [types.h] and of
    their inline member functions, followed by properties of them.

    The header computes with [double]: here the IEEE 754 binary64 numbers
    of the kernel ([PrimFloat.float]), whose operations the standard
    library specifies on [spec_float].  The templates and the member
    functions are written over an interface of the operators they use and
    instantiated at [double] (a template also at an integer type).
    <cmath>'s [atan2] is not part of the header: the one function that
    calls it takes it as a parameter. *)

From Stdlib Require Import Bool ZArith String Ascii Floats Lia.
From Stdlib Require Import DecimalString DecimalN.

Set Implicit Arguments.

(** ** Scalars *)

(** The arithmetic operators the header applies to a coordinate:
    literal [0], binary [+], [*], [/] and unary [-]. *)
Class Arith (T : Type) := {
  zero : T;
  add : T -> T -> T;
  mul : T -> T -> T;
  div : T -> T -> T;
  opp : T -> T
}.

(** The comparisons [InclusiveBounds<T>] uses: [a < b] and [a <= b]. *)
Class Compare (T : Type) := {
  lt : T -> T -> bool;
  le : T -> T -> bool
}.

(** [a > b] and [a >= b] of an arithmetic type are [b < a] and [b <= a]. *)
Definition gt {T} `{Compare T} (a b : T) : bool := lt b a.
Definition ge {T} `{Compare T} (a b : T) : bool := le b a.

(** [std::atan2] of <cmath>: a library function, not part of the header. *)
Class Trig (T : Type) := {
  atan2 : T -> T -> T
}.

(** [double]: binary64. *)
Definition double : Type := float.

#[export] Instance Arith_double : Arith double := {
  zero := 0%float;
  add := PrimFloat.add;
  mul := PrimFloat.mul;
  div := PrimFloat.div;
  opp := PrimFloat.opp
}.

#[export] Instance Compare_double : Compare double := {
  lt := PrimFloat.ltb;
  le := PrimFloat.leb
}.

(** [std::isnan] and [std::isfinite]. *)
Definition isnan (v : double) : bool := PrimFloat.is_nan v.
Definition isfinite (v : double) : bool := PrimFloat.is_finite v.

(** ** RectBounds<T> *)

Record RectBounds (T : Type) := mkRectBounds {
  left : T;
  right : T;
  top : T;
  bottom : T
}.

(** [RectBounds<T>{-right, -left, top, bottom}] *)
Definition reflectedHorizontally {T} `{Arith T} (r : RectBounds T)
  : RectBounds T :=
  mkRectBounds (opp (right r)) (opp (left r)) (top r) (bottom r).

Definition RectBoundsd : Type := RectBounds double.

(** [std::array<double, 2>] and [std::array<double, 3>] *)
Definition Point2d : Type := (double * double)%type.
Definition Point3d : Type := (double * double * double)%type.

(** ** DataOrigin *)

Record DataOrigin := mkDataOrigin {
  inputSource : string;
  lineNumber : N
}.

(** [std::string::empty]: the string has no character. *)
Definition empty (s : string) : bool :=
  match s with
  | EmptyString => true
  | String _ _ => false
  end.

(** [return !inputSource.empty();] *)
Definition known (d : DataOrigin) : bool := negb (empty (inputSource d)).

(** A default-constructed [DataOrigin]: the string member is
    default-constructed, hence empty; [lineNumber] has no initializer, so
    its value [n] is whatever the storage held (zero under
    value-initialization). *)
Definition DataOrigin_default (n : N) : DataOrigin :=
  mkDataOrigin EmptyString n.

(** ** XYZ: a 3D coordinate *)

Record XYZ (T : Type) := mkXYZ {
  x : T;
  y : T;
  z : T
}.

Section XYZ_members.
Context {T : Type} `{Arith T}.

(** [XYZ() { x = y = z = 0; }] *)
Definition XYZ_default : XYZ T := mkXYZ zero zero zero.

Definition set_x (p : XYZ T) (v : T) : XYZ T := mkXYZ v (y p) (z p).
Definition set_y (p : XYZ T) (v : T) : XYZ T := mkXYZ (x p) v (z p).
Definition set_z (p : XYZ T) (v : T) : XYZ T := mkXYZ (x p) (y p) v.

(** [return std::atan2(-x, -z);] *)
Definition rotationAboutY `{Trig T} (p : XYZ T) : T :=
  atan2 (opp (x p)) (opp (z p)).

(** The divisor [A * x + B * y + C * z] of [projectOntoPlane], as C++
    parses it: [(A * x + B * y) + C * z]. *)
Definition denominator (p : XYZ T) (A B C : T) : T :=
  add (add (mul A (x p)) (mul B (y p))) (mul C (z p)).

(** [[
    XYZ ret;
    double s = -D / (A * x + B * y + C * z);
    ret.x = s * x;  ret.y = s * y;  ret.z = s * z;
    return ret;
    ]] *)
Definition projectOntoPlane (p : XYZ T) (A B C D : T) : XYZ T :=
  let ret := XYZ_default in
  let s := div (opp D) (denominator p A B C) in
  let ret := set_x ret (mul s (x p)) in
  let ret := set_y ret (mul s (y p)) in
  let ret := set_z ret (mul s (z p)) in
  ret.

(** The left-hand side of the plane equation [Ax + By + Cz + D = 0]. *)
Definition planeEquation (p : XYZ T) (A B C D : T) : T :=
  add (denominator p A B C) D.
End XYZ_members.

(** ** Plane and its named coefficient accessors *)

(** [Eigen::Hyperplane<double, 3>] keeps the coefficients of
    [Ax + By + Cz + D = 0] in one 4-vector, read through [coeffs()]. *)
Record Vector4d := mkVector4d {
  c0 : double;
  c1 : double;
  c2 : double;
  c3 : double
}.

(** [v[i]]: Eigen asserts [i < 4]; an index out of range has no value. *)
Definition coeff (v : Vector4d) (i : nat) : option double :=
  match i with
  | 0 => Some (c0 v)
  | 1 => Some (c1 v)
  | 2 => Some (c2 v)
  | 3 => Some (c3 v)
  | _ => None
  end.

Record Plane := mkPlane {
  coeffs : Vector4d
}.

(** The tag types [PlaneA], [PlaneB], [PlaneC], [PlaneD]. *)
Inductive PlaneTag := PlaneA | PlaneB | PlaneC | PlaneD.

(** [detail::PlaneCoefficientIndexTrait<T>]: an
    [std::integral_constant<std::size_t, _>] per tag. *)
Definition PlaneCoefficientIndexTrait (t : PlaneTag) : nat :=
  match t with
  | PlaneA => 0
  | PlaneB => 1
  | PlaneC => 2
  | PlaneD => 3
  end.

(** [detail::PlaneAccessProxy<Derived>::get]:
    [return p.coeffs()[PlaneCoefficientIndexTrait<Derived>()];] *)
Definition get (t : PlaneTag) (p : Plane) : option double :=
  coeff (coeffs p) (PlaneCoefficientIndexTrait t).

(** ** ProjectionDescription *)

Record ProjectionDescription := mkProjectionDescription {
  hFOVDegrees : double;
  vFOVDegrees : double;
  overlapPercent : double;
  cop : Point2d
}.

(** A default-constructed [ProjectionDescription]: the default member
    initializers give [overlapPercent = 100.] and [cop = {0.5, 0.5}]; the
    two fields of view have none, so their values [h] and [v] are whatever
    the storage held (zero under value-initialization). *)
Definition ProjectionDescription_default (h v : double)
  : ProjectionDescription :=
  mkProjectionDescription h v 100%float (0.5%float, 0.5%float).

(** ** InclusiveBounds<T> *)

Record InclusiveBounds (T : Type) := mkInclusiveBounds {
  valid_ : bool;
  minVal_ : T;
  maxVal_ : T
}.

Section InclusiveBounds_members.
Context {T : Type} `{Compare T}.

(** [InclusiveBounds() = default;]: [valid_ = false] by its default
    member initializer; [minVal_] and [maxVal_] have none, so their
    values [m] and [M] are whatever the storage held. *)
Definition InclusiveBounds_default (m M : T) : InclusiveBounds T :=
  mkInclusiveBounds false m M.

(** [[
    InclusiveBounds(value_type minVal, value_type maxVal)
        : valid_(true), minVal_(minVal), maxVal_(maxVal) {
        if (maxVal_ < minVal_) { using std::swap; swap(minVal_, maxVal_); }
    }
    ]] *)
Definition InclusiveBounds_make (minVal maxVal : T) : InclusiveBounds T :=
  let b := mkInclusiveBounds true minVal maxVal in
  if lt (maxVal_ b) (minVal_ b)
  then mkInclusiveBounds (valid_ b) (maxVal_ b) (minVal_ b)
  else b.

(** [explicit operator bool() const { return valid_; }] *)
Definition to_bool (b : InclusiveBounds T) : bool := valid_ b.

(** [return (!valid_) || (val >= minVal_ && val <= maxVal_);] *)
Definition contains (b : InclusiveBounds T) (val : T) : bool :=
  negb (valid_ b) || (ge val (minVal_ b) && le val (maxVal_ b)).

(** [return valid_ && (val < minVal_ || val > maxVal_);] *)
Definition outside (b : InclusiveBounds T) (val : T) : bool :=
  valid_ b && (lt val (minVal_ b) || gt val (maxVal_ b)).

Definition getMin (b : InclusiveBounds T) : T := minVal_ b.
Definition getMax (b : InclusiveBounds T) : T := maxVal_ b.
End InclusiveBounds_members.

Definition InclusiveBoundsd : Type := InclusiveBounds double.

(** Comparison of an integer type is comparison of its values. *)
#[export] Instance Compare_Z : Compare Z := {
  lt := Z.ltb;
  le := Z.leb
}.

(** ** XYInclusiveBounds<T> *)

Record XYInclusiveBounds (T : Type) := mkXYInclusiveBounds {
  xBounds : InclusiveBounds T;
  yBounds : InclusiveBounds T
}.

(** [return static_cast<bool>(x) || static_cast<bool>(y);] *)
Definition XY_to_bool {T} (b : XYInclusiveBounds T) : bool :=
  valid_ (xBounds b) || valid_ (yBounds b).

(** ** XYZ::distanceFrom *)

(** Binary [-] and [std::sqrt], which [distanceFrom] adds to the
    operators of [Arith]. *)
Class Metric (T : Type) := {
  sub : T -> T -> T;
  sqrt : T -> T
}.

#[export] Instance Metric_double : Metric double := {
  sub := PrimFloat.sub;
  sqrt := PrimFloat.sqrt
}.

(** [[
    return std::sqrt((x - p.x) * (x - p.x) + (y - p.y) * (y - p.y)
                     + (z - p.z) * (z - p.z));
    ]] *)
Definition distanceFrom {T} `{Arith T} `{Metric T} (a p : XYZ T) : T :=
  sqrt (add (add (mul (sub (x a) (x p)) (sub (x a) (x p)))
                 (mul (sub (y a) (y p)) (sub (y a) (y p))))
            (mul (sub (z a) (z p)) (sub (z a) (z p)))).

(** ** toEigen and toXYZ *)

(** [Eigen::Vector3d]: three coordinates, read by [x()], [y()], [z()]. *)
Record Vector3d := mkVector3d {
  vx : double;
  vy : double;
  vz : double
}.

(** [return Eigen::Vector3d(p.x, p.y, p.z);] *)
Definition toEigen (p : XYZ double) : Vector3d :=
  mkVector3d (x p) (y p) (z p).

(** [return XYZ{p.x(), p.y(), p.z()};] *)
Definition toXYZ (p : Vector3d) : XYZ double :=
  mkXYZ (vx p) (vy p) (vz p).

(** ** Measurements and their origin *)

(** [LongLat]: a [Point2d] read as (longitude, latitude). *)
Record LongLat := mkLongLat {
  longLat : Point2d
}.

Definition longitude (l : LongLat) : double := fst (longLat l).
Definition latitude (l : LongLat) : double := snd (longLat l).

Module InputMeasurement.
Record t := mk {
  screen : Point2d;
  viewAnglesDegrees : LongLat;
  lineNumber : N
}.
End InputMeasurement.

Module InputMeasurements.
Record t := mk {
  inputSource : string;
  measurements : list InputMeasurement.t
}.

(** [return measurements.empty();] *)
Definition empty (c : t) : bool :=
  match measurements c with
  | nil => true
  | cons _ _ => false
  end.

(** [return measurements.size();] *)
Definition size (c : t) : nat := Datatypes.length (measurements c).
End InputMeasurements.

(** [return DataOrigin{parent.inputSource, lineNumber};] *)
Definition InputMeasurement_getOrigin
  (m : InputMeasurement.t) (parent : InputMeasurements.t) : DataOrigin :=
  mkDataOrigin (InputMeasurements.inputSource parent)
               (InputMeasurement.lineNumber m).

Module NormalizedMeasurement.
Record t := mk {
  screen : Point2d;
  pointFromView : Point3d;
  lineNumber : N
}.
End NormalizedMeasurement.

Module NormalizedMeasurements.
Record t := mk {
  inputSource : string;
  measurements : list NormalizedMeasurement.t
}.

Definition empty (c : t) : bool :=
  match measurements c with
  | nil => true
  | cons _ _ => false
  end.

Definition size (c : t) : nat := Datatypes.length (measurements c).
End NormalizedMeasurements.

(** [return DataOrigin{parent.inputSource, lineNumber};] *)
Definition NormalizedMeasurement_getOrigin
  (m : NormalizedMeasurement.t) (parent : NormalizedMeasurements.t)
  : DataOrigin :=
  mkDataOrigin (NormalizedMeasurements.inputSource parent)
               (NormalizedMeasurement.lineNumber m).

(** ** Stream insertion *)

(** What the inserters of the header observe of a [std::ostream] in good
    state: the characters written so far, and the field width, fill
    character and adjustment that pad the next formatted insertion. *)
Record ostream := mkostream {
  buffer : string;
  width : nat;
  fill : ascii;
  adjust_left : bool
}.

Fixpoint fill_n (n : nat) (c : ascii) : string :=
  match n with
  | O => EmptyString
  | S k => String c (fill_n k c)
  end.

(** Padding of a formatted insertion ([ostream.formatted.reqmts]): fill
    characters up to the field width, after the text when the adjustment
    is [left], before it otherwise. *)
Definition padded (os : ostream) (s : string) : string :=
  let n := width os - String.length s in
  if adjust_left os then (s ++ fill_n n (fill os))%string
  else (fill_n n (fill os) ++ s)%string.

(** [os << s] for a [std::string] or string literal: the padded text is
    appended and the width is reset to zero. *)
Definition insert (os : ostream) (s : string) : ostream :=
  mkostream (buffer os ++ padded os s)%string 0 (fill os) (adjust_left os).

(** A just-constructed [std::ostringstream]: nothing written, width zero,
    fill a space, adjustment not [left]. *)
Definition ostringstream : ostream :=
  mkostream EmptyString 0 (ascii_of_nat 32) false.

(** [oss.str()] *)
Definition str (oss : ostream) : string := buffer oss.

(** [os << n] for a [std::size_t] on a stream with default flags and the
    classic locale: the decimal digits of [n], padded like any formatted
    insertion. *)
Definition insert_size_t (os : ostream) (n : N) : ostream :=
  insert os (NilEmpty.string_of_uint (N.to_uint n)).

Definition colon : string := String (ascii_of_nat 58) EmptyString.
Definition unknown_text : string := "(unknown)".

(** [[
    if (orig.known()) {
        std::ostringstream oss;
        oss << orig.inputSource << ":" << orig.lineNumber;
        os << oss.str();
    } else {
        os << "(unknown)";
    }
    return os;
    ]] *)
Definition insert_DataOrigin (os : ostream) (orig : DataOrigin) : ostream :=
  if known orig then
    let oss := ostringstream in
    let oss := insert oss (inputSource orig) in
    let oss := insert oss colon in
    let oss := insert_size_t oss (lineNumber orig) in
    insert os (str oss)
  else insert os unknown_text.

Section Bounds_inserters.
Context {T : Type}.

(** The text that [oss << v] produces for a [T] once [oss] has been given
    the flags and the precision of [os]; [oss] keeps its own width,
    zero, so nothing is padded. *)
Variable format : T -> string.

(** [[
    std::ostringstream oss;
    oss << "[";
    if (bounds) {
        ... oss << bounds.getMin(); ... oss << ", "; ... oss << bounds.getMax();
    } else {
        oss << "unbounded";
    }
    oss << "]";
    os << oss.str();
    return os;
    ]] *)
Definition insert_InclusiveBounds (os : ostream) (bounds : InclusiveBounds T)
  : ostream :=
  let oss := ostringstream in
  let oss := insert oss "[" in
  let oss :=
    if valid_ bounds then
      let oss := insert oss (format (minVal_ bounds)) in
      let oss := insert oss ", " in
      insert oss (format (maxVal_ bounds))
    else insert oss "unbounded" in
  let oss := insert oss "]" in
  insert os (str oss).

(** [[
    if (!xyBounds) { os << "unbounded"; return os; }
    if (xyBounds.x) { os << "x: " << xyBounds.x; }
    if (xyBounds.x && xyBounds.y) { os << ", "; }
    if (xyBounds.y) { os << "y: " << xyBounds.y; }
    return os;
    ]] *)
Definition insert_XYInclusiveBounds (os : ostream) (xyBounds : XYInclusiveBounds T)
  : ostream :=
  if negb (XY_to_bool xyBounds) then insert os "unbounded"
  else
    let os :=
      if valid_ (xBounds xyBounds)
      then insert_InclusiveBounds (insert os "x: ") (xBounds xyBounds)
      else os in
    let os :=
      if valid_ (xBounds xyBounds) && valid_ (yBounds xyBounds)
      then insert os ", "
      else os in
    let os :=
      if valid_ (yBounds xyBounds)
      then insert_InclusiveBounds (insert os "y: ") (yBounds xyBounds)
      else os in
    os.
End Bounds_inserters.


Unset Implicit Arguments.

(** * Facts about binary64 *)

(** The primitive operations are specified on [spec_float] by the
    standard library ([FloatAxioms]); the lemmas below lift what the
    properties need from that specification. *)

Module Binary64.

(** The class of a number: what [isnan] and [isfinite] inspect. *)
Definition SFis_nan (s : spec_float) : bool :=
  match s with S754_nan => true | _ => false end.

Definition SFis_zero (s : spec_float) : bool :=
  match s with S754_zero _ => true | _ => false end.

Definition SFis_finite (s : spec_float) : bool :=
  match s with S754_nan | S754_infinity _ => false | _ => true end.

Lemma SFcompare_refl (s : spec_float) :
  SFis_nan s = false -> SFcompare s s = Some Eq.
Proof.
  destruct s as [[|]|[|]| |[|] m e]; simpl; try reflexivity; try discriminate;
    intros _; rewrite Z.compare_refl, Pos.compare_cont_refl; reflexivity.
Qed.

Lemma SFcompare_nan (s t : spec_float) :
  SFcompare s t = None <-> SFis_nan s = true \/ SFis_nan t = true.
Proof.
  destruct s as [[|]|[|]| |[|] m e], t as [[|]|[|]| |[|] m' e'];
    simpl; split; intros Hc; try discriminate; auto;
    destruct Hc; discriminate.
Qed.

Lemma SFcompare_antisym (s t : spec_float) :
  SFcompare t s = option_map CompOpp (SFcompare s t).
Proof.
  destruct s as [[|]|[|]| |[|] m e], t as [[|]|[|]| |[|] m' e'];
    simpl; try reflexivity;
    rewrite (Z.compare_antisym e e');
    destruct (e ?= e')%Z; simpl; try reflexivity;
    change (Pos.compare_cont Eq m' m)
      with (Pos.compare_cont (CompOpp Eq) m' m);
    rewrite <- (Pos.compare_cont_antisym m m' Eq);
    destruct (Pos.compare_cont Eq m m'); reflexivity.
Qed.

Lemma SFltb_negb_SFleb (s t : spec_float) :
  SFis_nan s = false -> SFis_nan t = false ->
  SFltb s t = negb (SFleb t s).
Proof.
  intros Hs Ht. unfold SFltb, SFleb. rewrite (SFcompare_antisym s t).
  destruct (SFcompare s t) as [[| |]|] eqn:Hc; try reflexivity.
  apply SFcompare_nan in Hc. destruct Hc; congruence.
Qed.

Lemma SFopp_involutive (s : spec_float) : SFopp (SFopp s) = s.
Proof. destruct s; simpl; rewrite ?negb_involutive; reflexivity. Qed.

Lemma isnan_spec (v : double) : isnan v = SFis_nan (Prim2SF v).
Proof.
  unfold isnan, is_nan. rewrite eqb_spec. unfold SFeqb.
  destruct (Prim2SF v) as [s|s| |s m e]; try reflexivity;
    rewrite SFcompare_refl; reflexivity.
Qed.

Lemma isfinite_spec (v : double) : isfinite v = SFis_finite (Prim2SF v).
Proof.
  unfold isfinite, is_finite. fold (isnan v). rewrite isnan_spec.
  unfold is_infinity. rewrite eqb_spec, abs_spec.
  destruct (Prim2SF v) as [[|]|[|]| |[|] m e]; reflexivity.
Qed.

(** [v == 0] holds of the two zeros and of nothing else. *)
Lemma eqb_zero_spec (v : double) :
  (v =? 0)%float = SFis_zero (Prim2SF v).
Proof.
  rewrite eqb_spec. change (Prim2SF 0%float) with (S754_zero false).
  destruct (Prim2SF v) as [[|]|[|]| |[|] m e]; reflexivity.
Qed.

Lemma opp_involutive (v : double) : (- - v)%float = v.
Proof.
  apply Prim2SF_inj. rewrite !opp_spec. apply SFopp_involutive.
Qed.

Lemma ltb_negb_leb (a b : double) :
  isnan a = false -> isnan b = false -> (a <? b)%float = negb (b <=? a)%float.
Proof.
  rewrite !isnan_spec, ltb_spec, leb_spec. apply SFltb_negb_SFleb.
Qed.

Lemma ltb_leb (a b : double) :
  (a <? b)%float = true -> (a <=? b)%float = true.
Proof.
  rewrite ltb_spec, leb_spec. unfold SFltb, SFleb.
  destruct (SFcompare _ _) as [[| |]|]; congruence.
Qed.

Lemma eqb_refl (a : double) : isnan a = false -> (a =? a)%float = true.
Proof.
  unfold isnan, is_nan. destruct (a =? a)%float; simpl; congruence.
Qed.

(** Neither below nor above: equal (as [==] has it). *)
Lemma not_ltb_eqb (a b : double) :
  isnan a = false -> isnan b = false ->
  (a <? b)%float = false -> (b <? a)%float = false -> (a =? b)%float = true.
Proof.
  rewrite !isnan_spec, !ltb_spec, eqb_spec. unfold SFltb, SFeqb.
  intros Ha Hb. rewrite (SFcompare_antisym (Prim2SF a) (Prim2SF b)).
  destruct (SFcompare _ _) as [[| |]|] eqn:Hc; simpl; try congruence.
  apply SFcompare_nan in Hc. destruct Hc; congruence.
Qed.

End Binary64.

(** ** Exact cases of binary64 arithmetic *)

(** Three computations that round to nothing: a number divided by itself,
    one times a number, and a sum that comes out zero. *)

Module Rounding.
Import Binary64.

Definition SFone64 : spec_float := S754_finite false 4503599627370496 (-52).

Lemma Prim2SF_one : Prim2SF 1%float = SFone64.
Proof. reflexivity. Qed.

Lemma div_eucl_mul (a b : Z) : (b <> 0)%Z -> Z.div_eucl (a * b) b = (a, 0%Z).
Proof.
  intros Hb. pose proof (Z.div_mul a b Hb) as Hq. pose proof (Z.mod_mul a b Hb) as Hr.
  unfold Z.div, Z.modulo in Hq, Hr. destruct (Z.div_eucl (a * b) b) as [q r].
  simpl in *. congruence.
Qed.

Lemma SFdiv_core_same (m : positive) (e : Z) :
  SFdiv_core_binary prec emax (Zpos m) e (Zpos m) e
  = (9007199254740992%Z, (-53)%Z, loc_Exact).
Proof.
  unfold SFdiv_core_binary. rewrite !Z.sub_diag.
  change (Z.min (fexp prec emax 0) 0) with (-53)%Z.
  change (0 - (-53))%Z with 53%Z. cbv iota beta.
  rewrite Z.shiftl_mul_pow2 by lia. rewrite Z.mul_comm.
  rewrite div_eucl_mul by lia.
  unfold new_location, new_location_even, new_location_odd.
  destruct (Z.even (Zpos m)); reflexivity.
Qed.

Lemma SFdiv_same (s : bool) (m : positive) (e : Z) :
  SF64div (S754_finite s m e) (S754_finite s m e) = SFone64.
Proof.
  unfold SF64div, SFdiv. rewrite SFdiv_core_same, xorb_nilpotent. reflexivity.
Qed.

(** Right shifts *)
Lemma iter_shr_1_exact (n : positive) :
  forall m : positive,
    SpecFloat.iter_pos shr_1 n (Build_shr_record (Zpos (Pos.iter xO m n)) false false)
    = Build_shr_record (Zpos m) false false.
Proof.
  induction n as [n IH|n IH|]; intros m.
  - change (SpecFloat.iter_pos shr_1 n~1 ?r) with (SpecFloat.iter_pos shr_1 n (SpecFloat.iter_pos shr_1 n (shr_1 r))).
    change (Pos.iter xO m n~1) with (xO (Pos.iter xO (Pos.iter xO m n) n)).
    change (shr_1 (Build_shr_record (Zpos (xO ?q)) false false))
      with (Build_shr_record (Zpos q) false false).
    rewrite IH. apply IH.
  - change (SpecFloat.iter_pos shr_1 n~0 ?r) with (SpecFloat.iter_pos shr_1 n (SpecFloat.iter_pos shr_1 n r)).
    change (Pos.iter xO m n~0) with (Pos.iter xO (Pos.iter xO m n) n).
    rewrite IH. apply IH.
  - reflexivity.
Qed.

Lemma digits2_pos_iter_xO (n m : positive) :
  Zpos (digits2_pos (Pos.iter xO m n)) = (Zpos (digits2_pos m) + Zpos n)%Z.
Proof.
  induction n as [|n IH] using Pos.peano_ind.
  - simpl. lia.
  - rewrite Pos.iter_succ.
    change (digits2_pos (xO ?q)) with (Pos.succ (digits2_pos q)).
    rewrite Pos2Z.inj_succ, IH. lia.
Qed.

Lemma mul_pow52 (m : positive) :
  (4503599627370496 * m)%positive = Pos.iter xO m 52.
Proof. reflexivity. Qed.

Lemma shr_fexp_canonical (m : positive) (e : Z) :
  canonical_mantissa prec emax m e = true ->
  shr_fexp prec emax (Zpos m) e loc_Exact = (Build_shr_record (Zpos m) false false, e).
Proof.
  unfold canonical_mantissa. intros Hc. apply Z.eqb_eq in Hc.
  unfold shr_fexp. change (Zdigits2 (Zpos m)) with (Zpos (digits2_pos m)).
  rewrite Hc, Z.sub_diag. reflexivity.
Qed.

Lemma SFmul_one (v : spec_float) :
  valid_binary v = true -> SF64mul SFone64 v = v.
Proof.
  destruct v as [s|s| |s m e]; try reflexivity.
  unfold valid_binary, bounded. intros Hv.
  apply andb_true_iff in Hv. destruct Hv as [Hc Hb].
  pose proof (shr_fexp_canonical m e Hc) as Hs'.
  unfold canonical_mantissa in Hc. apply Z.eqb_eq in Hc.
  unfold SF64mul, SFone64, SFmul, binary_round_aux.
  change (xorb false s) with s. rewrite mul_pow52.
  assert (Hs : shr_fexp prec emax (Zpos (Pos.iter xO m 52)) (-52 + e) loc_Exact
               = (Build_shr_record (Zpos m) false false, e)).
  { unfold shr_fexp.
    change (Zdigits2 (Zpos ?p)) with (Zpos (digits2_pos p)).
    rewrite digits2_pos_iter_xO.
    replace (Zpos (digits2_pos m) + 52 + (-52 + e))%Z
      with (Zpos (digits2_pos m) + e)%Z by lia.
    rewrite Hc. replace (e - (-52 + e))%Z with 52%Z by lia.
    unfold shr_record_of_loc, shr. rewrite iter_shr_1_exact.
    f_equal. lia. }
  rewrite Hs.
  change (round_nearest_even _ _) with (Zpos m).
  rewrite Hs'. change (shr_m _) with (Zpos m). cbv iota beta.
  rewrite Hb. reflexivity.
Qed.

(** Right shift as a quotient *)
Lemma shr_1_m (mrs : shr_record) :
  (0 <= shr_m mrs)%Z -> shr_m (shr_1 mrs) = Z.div2 (shr_m mrs).
Proof.
  destruct mrs as [m r s]. destruct m as [|[p|p|]|p]; intros Hm;
    try reflexivity; simpl in Hm; lia.
Qed.

Lemma iter_shr_1_m (n : positive) :
  forall mrs : shr_record,
    (0 <= shr_m mrs)%Z ->
    shr_m (SpecFloat.iter_pos shr_1 n mrs) = Z.shiftr (shr_m mrs) (Zpos n).
Proof.
  induction n as [n IH|n IH|]; intros mrs Hm.
  - change (SpecFloat.iter_pos shr_1 n~1 mrs)
      with (SpecFloat.iter_pos shr_1 n (SpecFloat.iter_pos shr_1 n (shr_1 mrs))).
    assert (H1 : (0 <= shr_m (shr_1 mrs))%Z).
    { rewrite shr_1_m, Z.div2_spec by exact Hm. now apply Z.shiftr_nonneg. }
    assert (H2 : (0 <= shr_m (SpecFloat.iter_pos shr_1 n (shr_1 mrs)))%Z).
    { rewrite IH by exact H1. now apply Z.shiftr_nonneg. }
    rewrite IH by exact H2. rewrite IH by exact H1.
    rewrite shr_1_m, Z.div2_spec by exact Hm.
    rewrite !Z.shiftr_shiftr by lia. f_equal. lia.
  - change (SpecFloat.iter_pos shr_1 n~0 mrs) with (SpecFloat.iter_pos shr_1 n (SpecFloat.iter_pos shr_1 n mrs)).
    assert (H2 : (0 <= shr_m (SpecFloat.iter_pos shr_1 n mrs))%Z).
    { rewrite IH by exact Hm. now apply Z.shiftr_nonneg. }
    rewrite IH by exact H2. rewrite IH by exact Hm.
    rewrite !Z.shiftr_shiftr by lia. f_equal. lia.
  - change (SpecFloat.iter_pos shr_1 1 mrs) with (shr_1 mrs).
    rewrite shr_1_m, Z.div2_spec by exact Hm. reflexivity.
Qed.

Lemma digits2_pos_lower (m : positive) :
  (2 ^ (Zpos (digits2_pos m) - 1) <= Zpos m)%Z.
Proof.
  induction m as [m IH|m IH|].
  - change (digits2_pos m~1) with (Pos.succ (digits2_pos m)).
    rewrite Pos2Z.inj_succ.
    replace (Z.succ (Zpos (digits2_pos m)) - 1)%Z
      with (Z.succ (Zpos (digits2_pos m) - 1))%Z by lia.
    rewrite Z.pow_succ_r by lia. lia.
  - change (digits2_pos m~0) with (Pos.succ (digits2_pos m)).
    rewrite Pos2Z.inj_succ.
    replace (Z.succ (Zpos (digits2_pos m)) - 1)%Z
      with (Z.succ (Zpos (digits2_pos m) - 1))%Z by lia.
    rewrite Z.pow_succ_r by lia. lia.
  - simpl. lia.
Qed.

Lemma shr_record_of_loc_m (m : Z) (l : location) :
  shr_m (shr_record_of_loc m l) = m.
Proof. destruct l as [|[| |]]; reflexivity. Qed.

Lemma shr_fexp_pos (m : positive) (e : Z) (l : location) :
  (emin <= e)%Z ->
  (0 < shr_m (fst (shr_fexp prec emax (Zpos m) e l)))%Z /\
  (emin <= snd (shr_fexp prec emax (Zpos m) e l))%Z.
Proof.
  intros He. unfold shr_fexp.
  change (Zdigits2 (Zpos m)) with (Zpos (digits2_pos m)).
  set (d := Zpos (digits2_pos m)).
  assert (Hn : (fexp prec emax (d + e) - e = Z.max (d - 53) (emin - e))%Z).
  { unfold fexp. change prec with 53%Z. lia. }
  rewrite Hn. unfold shr.
  destruct (Z.max (d - 53) (emin - e)) as [|p|p] eqn:Hp.
  - simpl. rewrite shr_record_of_loc_m. lia.
  - simpl fst. simpl snd. split; [|lia].
    rewrite iter_shr_1_m by (rewrite shr_record_of_loc_m; lia).
    rewrite shr_record_of_loc_m, Z.shiftr_div_pow2 by lia.
    apply Z.div_str_pos. split; [apply Z.pow_pos_nonneg; lia|].
    pose proof (digits2_pos_lower m) as Hd. fold d in Hd.
    apply Z.le_trans with (2 ^ (d - 1))%Z; [|exact Hd].
    apply Z.pow_le_mono_r; lia.
  - simpl. rewrite shr_record_of_loc_m. lia.
Qed.

Lemma round_nearest_even_pos (m : Z) (l : location) :
  (0 < m)%Z -> (0 < round_nearest_even m l)%Z.
Proof.
  intros Hm. destruct l as [|[| |]]; simpl; try destruct (Z.even m); lia.
Qed.

Lemma binary_round_aux_not_zero (s : bool) (m : positive) (e : Z) (l : location) :
  (emin <= e)%Z ->
  SFis_zero (binary_round_aux prec emax s (Zpos m) e l) = false.
Proof.
  intros He. unfold binary_round_aux.
  destruct (shr_fexp_pos m e l He) as [Hm1 He1].
  destruct (shr_fexp prec emax (Zpos m) e l) as [mrs' e'].
  simpl fst in Hm1. simpl snd in He1.
  pose proof (round_nearest_even_pos _ (loc_of_shr_record mrs') Hm1) as Hr.
  destruct (round_nearest_even (shr_m mrs') (loc_of_shr_record mrs')) as [|m2|m2];
    try lia.
  destruct (shr_fexp_pos m2 e' loc_Exact He1) as [Hm3 _].
  destruct (shr_fexp prec emax (Zpos m2) e' loc_Exact) as [mrs'' e''].
  simpl fst in Hm3.
  destruct (shr_m mrs'') as [|m3|m3]; try lia.
  destruct (e'' <=? emax - prec)%Z; reflexivity.
Qed.

Lemma fexp_emin (k : Z) : (emin <= fexp prec emax k)%Z.
Proof. unfold fexp. apply Z.le_max_r. Qed.

Lemma shl_align_spec (m : positive) (e e' : Z) :
  snd (shl_align m e e') = Z.min e e' /\
  (Zpos (digits2_pos (fst (shl_align m e e'))) + snd (shl_align m e e')
   = Zpos (digits2_pos m) + e)%Z /\
  ((e <= e')%Z -> fst (shl_align m e e') = m).
Proof.
  unfold shl_align. destruct (e' - e)%Z as [|d|d] eqn:Hd; simpl fst; simpl snd.
  - repeat split; lia.
  - repeat split; lia.
  - rewrite digits2_pos_iter_xO. repeat split; lia.
Qed.

Lemma binary_round_not_zero (s : bool) (m : positive) (e : Z) :
  (emin <= e)%Z -> SFis_zero (binary_round prec emax s m e) = false.
Proof.
  intros He. unfold binary_round.
  destruct (shl_align_spec m e (fexp prec emax (Zpos (digits2_pos m) + e)))
    as (Hsnd & _ & _).
  destruct (shl_align m e (fexp prec emax (Zpos (digits2_pos m) + e))) as [mz ez].
  simpl snd in Hsnd. apply binary_round_aux_not_zero.
  pose proof (fexp_emin (Zpos (digits2_pos m) + e)). lia.
Qed.

Lemma canonical_emin (m : positive) (e : Z) :
  canonical_mantissa prec emax m e = true -> (emin <= e)%Z.
Proof.
  unfold canonical_mantissa. intros Hc. apply Z.eqb_eq in Hc.
  rewrite <- Hc. apply fexp_emin.
Qed.

(** A sum that is a zero, of a number that is not. *)
Lemma SFadd_zero (u v : spec_float) :
  valid_binary u = true -> valid_binary v = true ->
  SFis_zero u = false -> SFis_zero (SF64add u v) = true ->
  exists s m e, u = S754_finite s m e /\ v = S754_finite (negb s) m e.
Proof.
  intros Hu Hv Hnz Hz.
  destruct u as [su|su| |su mu eu]; try discriminate;
    destruct v as [sv|sv| |sv mv ev]; try discriminate;
    try (destruct su, sv; discriminate).
  unfold valid_binary, bounded in Hu, Hv.
  apply andb_true_iff in Hu, Hv. destruct Hu as [Hcu _], Hv as [Hcv _].
  pose proof (canonical_emin _ _ Hcu) as Heu.
  pose proof (canonical_emin _ _ Hcv) as Hev.
  unfold canonical_mantissa in Hcu, Hcv. apply Z.eqb_eq in Hcu, Hcv.
  unfold SF64add, SFadd in Hz.
  destruct (shl_align_spec mu eu (Z.min eu ev)) as (Hsu & Hdu & Hiu).
  destruct (shl_align_spec mv ev (Z.min eu ev)) as (Hsv & Hdv & Hiv).
  set (mu' := fst (shl_align mu eu (Z.min eu ev))) in *.
  set (mv' := fst (shl_align mv ev (Z.min eu ev))) in *.
  assert (Hsum : (cond_Zopp su (Zpos mu') + cond_Zopp sv (Zpos mv') = 0)%Z).
  { destruct (cond_Zopp su (Zpos mu') + cond_Zopp sv (Zpos mv'))%Z as [|q|q];
      [reflexivity| |];
      unfold binary_normalize in Hz;
      rewrite binary_round_not_zero in Hz by lia; discriminate. }
  assert (Hm : mu' = mv' /\ sv = negb su).
  { clearbody mu' mv'. unfold cond_Zopp in Hsum.
    destruct su, sv; split; try reflexivity; try lia;
      assert (Hq : Zpos mu' = Zpos mv') by lia; now injection Hq. }
  destruct Hm as [Hm Hs]. rewrite Hm in Hdu.
  assert (He : eu = ev).
  { rewrite <- Hcu, <- Hcv. f_equal. lia. }
  subst ev sv. exists su, mu, eu. split; [reflexivity|].
  rewrite Z.min_id in Hiu, Hiv.
  rewrite <- (Hiu (Z.le_refl eu)), <- (Hiv (Z.le_refl eu)), Hm. reflexivity.
Qed.

End Rounding.

(** ** The sign and rounding *)

Module Distance.
Import Binary64.

(** Rounding does not look at the sign. *)
Lemma binary_round_aux_opp (s : bool) (m e : Z) (l : location) :
  binary_round_aux prec emax (negb s) m e l
  = SFopp (binary_round_aux prec emax s m e l).
Proof.
  unfold binary_round_aux.
  destruct (shr_fexp prec emax m e l) as [mrs' e'].
  destruct (shr_fexp prec emax _ e' loc_Exact) as [mrs'' e''].
  destruct (shr_m mrs'') as [|q|q]; try reflexivity.
  destruct (e'' <=? emax - prec)%Z; reflexivity.
Qed.

Lemma binary_round_opp (s : bool) (m : positive) (e : Z) :
  binary_round prec emax (negb s) m e = SFopp (binary_round prec emax s m e).
Proof.
  unfold binary_round.
  destruct (shl_align m e _) as [mz ez]. apply binary_round_aux_opp.
Qed.

Lemma binary_normalize_opp (m e : Z) :
  m <> 0%Z ->
  binary_normalize prec emax (- m) e false
  = SFopp (binary_normalize prec emax m e false).
Proof.
  destruct m as [|q|q]; intros Hm; [now elim Hm| |]; simpl.
  - apply (binary_round_opp false).
  - pose proof (binary_round_opp false q e) as Hq. simpl negb in Hq.
    rewrite Hq. now rewrite SFopp_involutive.
Qed.

(** The absolute value as [spec_float] has it, for stating that two
    numbers differ at most in sign. *)
Lemma SFsub_swap (u v : spec_float) :
  SFabs (SF64sub v u) = SFabs (SF64sub u v).
Proof.
  destruct u as [[|]|[|]| |su mu eu], v as [[|]|[|]| |sv mv ev];
    try reflexivity.
  unfold SF64sub, SFsub. rewrite (Z.min_comm ev eu).
  set (U := cond_Zopp su (Zpos (fst (shl_align mu eu (Z.min eu ev))))).
  set (V := cond_Zopp sv (Zpos (fst (shl_align mv ev (Z.min eu ev))))).
  destruct (Z.eq_dec (U - V) 0) as [H0|H0].
  - replace (V - U)%Z with 0%Z by lia. rewrite H0. reflexivity.
  - replace (V - U)%Z with (- (U - V))%Z by lia.
    rewrite (binary_normalize_opp _ _ H0).
    destruct (binary_normalize prec emax (U - V) (Z.min eu ev) false);
      reflexivity.
Qed.

(** A square does not depend on the sign of what is squared. *)
Lemma SFmul_square_abs (u v : spec_float) :
  SFabs u = SFabs v -> SF64mul u u = SF64mul v v.
Proof.
  destruct u as [su|su| |su mu eu], v as [sv|sv| |sv mv ev];
    try discriminate; simpl; intros Habs; try reflexivity;
    rewrite ?xorb_nilpotent; try reflexivity.
  injection Habs as -> ->. reflexivity.
Qed.

Lemma square_sub_swap (a b : double) :
  ((a - b) * (a - b))%float = ((b - a) * (b - a))%float.
Proof.
  apply Prim2SF_inj. rewrite !mul_spec, !sub_spec.
  apply SFmul_square_abs. apply SFsub_swap.
Qed.

(** A number below zero: a negative infinity or a negative finite
    number. *)
Definition SFis_negative (s : spec_float) : bool :=
  match s with
  | S754_infinity true | S754_finite true _ _ => true
  | _ => false
  end.

Lemma SFltb_zero (s : spec_float) :
  SFltb s (S754_zero false) = SFis_negative s.
Proof. destruct s as [[|]|[|]| |[|] m e]; reflexivity. Qed.

Lemma binary_round_aux_not_negative (m e : Z) (l : location) :
  SFis_negative (binary_round_aux prec emax false m e l) = false.
Proof.
  unfold binary_round_aux.
  destruct (shr_fexp prec emax m e l) as [mrs' e'].
  destruct (shr_fexp prec emax _ e' loc_Exact) as [mrs'' e''].
  destruct (shr_m mrs'') as [|q|q]; try reflexivity.
  destruct (e'' <=? emax - prec)%Z; reflexivity.
Qed.

(** A square root is never below zero. *)
Lemma SFsqrt_not_negative (s : spec_float) :
  SFis_negative (SF64sqrt s) = false.
Proof.
  destruct s as [[|]|[|]| |[|] m e]; try reflexivity.
  unfold SF64sqrt, SFsqrt.
  destruct (SFsqrt_core_binary prec emax (Zpos m) e) as [[mz ez] lz].
  apply binary_round_aux_not_negative.
Qed.

Lemma SFleb_zero (s : spec_float) :
  SFis_nan s = false -> SFis_negative s = false ->
  SFleb (S754_zero false) s = true.
Proof. destruct s as [[|]|[|]| |[|] m e]; try discriminate; reflexivity. Qed.
End Distance.

(** ** A number and its opposite *)

Module Mirror.
Import Binary64.

(** Two numbers that are opposite, or both a zero: how the divisor of a
    point and that of its mirror image are related. *)
Definition opposite (u u' : spec_float) : Prop :=
  u' = SFopp u \/ (SFis_zero u = true /\ SFis_zero u' = true).

Lemma SFmul_opp_r (a v : spec_float) :
  SF64mul a (SFopp v) = SFopp (SF64mul a v).
Proof.
  destruct a as [sa|sa| |sa ma ea], v as [sv|sv| |sv mv ev];
    simpl; rewrite <- ?negb_xorb_r; try reflexivity.
  apply Distance.binary_round_aux_opp.
Qed.

Lemma SFmul_opp_opp (a v : spec_float) :
  SF64mul (SFopp a) (SFopp v) = SF64mul a v.
Proof.
  destruct a as [sa|sa| |sa ma ea], v as [sv|sv| |sv mv ev];
    simpl; rewrite ?xorb_negb_negb; reflexivity.
Qed.

Lemma cond_Zopp_negb (s : bool) (m : Z) :
  cond_Zopp (negb s) m = (- cond_Zopp s m)%Z.
Proof. destruct s; simpl; lia. Qed.

Lemma SFadd_opp_opp (u v : spec_float) :
  opposite (SF64add u v) (SF64add (SFopp u) (SFopp v)).
Proof.
  destruct u as [[|]|[|]| |su mu eu], v as [[|]|[|]| |sv mv ev];
    try (left; reflexivity); try (right; split; reflexivity).
  unfold SF64add, SFadd, SFopp. rewrite !cond_Zopp_negb.
  set (U := cond_Zopp su _). set (V := cond_Zopp sv _).
  destruct (Z.eq_dec (U + V) 0) as [H0|H0].
  - right. replace (- U + - V)%Z with 0%Z by lia. rewrite H0.
    split; reflexivity.
  - left. replace (- U + - V)%Z with (- (U + V))%Z by lia.
    apply Distance.binary_normalize_opp. exact H0.
Qed.

Lemma SFadd_zero_l (u v : spec_float) :
  SFis_zero u = true -> SFis_zero v = false -> SF64add u v = v.
Proof.
  destruct u as [su| | |]; try discriminate.
  destruct v as [sv|sv| |sv mv ev]; try discriminate; reflexivity.
Qed.

Lemma SFadd_zero_r (u v : spec_float) :
  SFis_zero u = false -> SFis_zero v = true -> SF64add u v = u.
Proof.
  destruct v as [sv| | |]; try discriminate.
  destruct u as [su|su| |su mu eu]; try discriminate; reflexivity.
Qed.

Lemma SFadd_zero_zero (u v : spec_float) :
  SFis_zero u = true -> SFis_zero v = true -> SFis_zero (SF64add u v) = true.
Proof.
  destruct u as [[|]| | |], v as [[|]| | |]; try discriminate; reflexivity.
Qed.

Lemma SFis_zero_opp (u : spec_float) : SFis_zero (SFopp u) = SFis_zero u.
Proof. destruct u; reflexivity. Qed.

(** Sums of opposite numbers are opposite. *)
Lemma SFadd_opposite (u u' v v' : spec_float) :
  opposite u u' -> opposite v v' -> opposite (SF64add u v) (SF64add u' v').
Proof.
  intros [->|[Hu Hu']] [->|[Hv Hv']].
  - apply SFadd_opp_opp.
  - destruct (SFis_zero u) eqn:Hu.
    + right. split; apply SFadd_zero_zero; rewrite ?SFis_zero_opp; assumption.
    + left. rewrite !SFadd_zero_r; rewrite ?SFis_zero_opp; auto.
  - destruct (SFis_zero v) eqn:Hv.
    + right. split; apply SFadd_zero_zero; rewrite ?SFis_zero_opp; assumption.
    + left. rewrite !SFadd_zero_l; rewrite ?SFis_zero_opp; auto.
  - right. split; apply SFadd_zero_zero; assumption.
Qed.

Lemma SFdiv_opp_r (n d : spec_float) :
  SF64div n (SFopp d) = SFopp (SF64div n d).
Proof.
  destruct n as [sn|sn| |sn mn en], d as [sd|sd| |sd md ed];
    simpl; rewrite <- ?negb_xorb_r; try reflexivity.
  destruct (SFdiv_core_binary prec emax (Zpos mn) en (Zpos md) ed)
    as [[mz ez] lz].
  apply Distance.binary_round_aux_opp.
Qed.
End Mirror.

(** ** The scale of a projection *)

Lemma scale_on_plane_double (den D : double) :
  (den =? 0)%float = false -> (den + D =? 0)%float = true ->
  (- D / den)%float = 1%float.
Proof.
  rewrite !Binary64.eqb_zero_spec, add_spec. intros Hden Hon.
  destruct (Rounding.SFadd_zero _ _ (Prim2SF_valid den) (Prim2SF_valid D) Hden Hon)
    as (s & m & e & Hd & HD).
  apply Prim2SF_inj. rewrite div_spec, opp_spec, Hd, HD. simpl SFopp.
  rewrite negb_involutive. apply Rounding.SFdiv_same.
Qed.

Lemma mul_one_double (v : double) : (1 * v)%float = v.
Proof.
  apply Prim2SF_inj. rewrite mul_spec.
  apply Rounding.SFmul_one. apply Prim2SF_valid.
Qed.

Lemma mul_opp_opp_double (s v : double) : (- s * - v)%float = (s * v)%float.
Proof.
  apply Prim2SF_inj. rewrite !mul_spec, !opp_spec. apply Mirror.SFmul_opp_opp.
Qed.



(** Negation and the comparisons with zero. *)
Lemma opp_eqb_zero (v : double) :
  (v =? 0)%float = true -> (- v =? 0)%float = true.
Proof.
  rewrite !Binary64.eqb_zero_spec, opp_spec, Mirror.SFis_zero_opp. auto.
Qed.

Lemma opp_ltb_zero (v : double) :
  (v <? 0)%float = true -> (0 <? - v)%float = true.
Proof.
  rewrite !ltb_spec, opp_spec. change (Prim2SF 0%float) with (S754_zero false).
  destruct (Prim2SF v) as [[|]|[|]| |[|] m e]; try discriminate; reflexivity.
Qed.

Lemma opp_isnan (v : double) : isnan (- v)%float = isnan v.
Proof.
  rewrite !Binary64.isnan_spec, opp_spec. destruct (Prim2SF v); reflexivity.
Qed.

Lemma eqb_zero_not_ltb (v : double) :
  (v =? 0)%float = true -> (0 <? v)%float = false /\ (v <? 0)%float = false.
Proof.
  rewrite Binary64.eqb_zero_spec, !ltb_spec.
  change (Prim2SF 0%float) with (S754_zero false).
  destruct (Prim2SF v) as [[|]| | |]; try discriminate; split; reflexivity.
Qed.

(** * Properties *)

(** ** DataOrigin *)

(** C5. A [DataOrigin] is known exactly when its [inputSource] is not the
    empty string; a default-constructed one is unknown, whatever its line
    number; and the line number has no part in the answer. *)
Theorem known_iff_inputSource_nonempty :
  forall d : DataOrigin,
    (known d = true <-> inputSource d <> EmptyString) /\
    (forall n : N, known (DataOrigin_default n) = false) /\
    (forall n : N, known (mkDataOrigin (inputSource d) n) = known d).
Proof.
  intros [src line]; simpl. repeat split.
  - destruct src; simpl; [discriminate | intros _; discriminate].
  - destruct src; simpl; [intros Hne; now elim Hne | reflexivity].
Qed.

(** ** ProjectionDescription *)

(** C6. A default-constructed [ProjectionDescription] has
    [overlapPercent] 100 and centre of projection (0.5, 0.5), whatever its
    two uninitialised fields of view hold. *)
Theorem ProjectionDescription_default_values :
  forall h v : double,
    overlapPercent (ProjectionDescription_default h v) = 100%float /\
    cop (ProjectionDescription_default h v) = (0.5%float, 0.5%float).
Proof. intros h v. split; reflexivity. Qed.

(** ** Plane accessors *)

(** Positional access, [p.coeffs()[i]], as the callers are asked not to
    write it. *)
Definition positional (p : Plane) (i : nat) : option double :=
  coeff (coeffs p) i.

(** Every tag's index is within the four coefficients. *)
Lemma PlaneCoefficientIndexTrait_in_range (t : PlaneTag) :
  PlaneCoefficientIndexTrait t < 4.
Proof. destruct t; simpl; repeat constructor. Qed.

(** C7. Each named accessor reads the coefficient at its position:
    [PlaneA::get] the one at 0, [PlaneB::get] at 1, [PlaneC::get] at 2
    and [PlaneD::get] at 3; all four positions exist. *)
Theorem get_positional :
  forall p : Plane,
    (get PlaneA p = positional p 0 /\ get PlaneA p = Some (c0 (coeffs p))) /\
    (get PlaneB p = positional p 1 /\ get PlaneB p = Some (c1 (coeffs p))) /\
    (get PlaneC p = positional p 2 /\ get PlaneC p = Some (c2 (coeffs p))) /\
    (get PlaneD p = positional p 3 /\ get PlaneD p = Some (c3 (coeffs p))).
Proof. intros [[a b c d]]. repeat split. Qed.

(** ** RectBounds *)

(** C10. Reflecting a [RectBounds<double>] horizontally twice gives it
    back: negation of a binary64 number only flips its sign. *)
Theorem reflectedHorizontally_involutive :
  forall r : RectBoundsd, reflectedHorizontally (reflectedHorizontally r) = r.
Proof.
  intros [l r t b]. unfold reflectedHorizontally; simpl.
  rewrite !Binary64.opp_involutive. reflexivity.
Qed.

(** ** InclusiveBounds *)

(** An unbounded [InclusiveBounds] contains every value and has none
    outside, NaN included. *)
Lemma InclusiveBounds_default_contains {T} `{Compare T} (m M v : T) :
  contains (InclusiveBounds_default m M) v = true /\
  outside (InclusiveBounds_default m M) v = false.
Proof. split; reflexivity. Qed.

(** C8, as stated, fails at NaN: the bounds [0, 1] neither contain NaN
    nor have it outside, every comparison with NaN being false. *)
Lemma outside_nan_not_negb_contains :
  let b : InclusiveBoundsd := InclusiveBounds_make 0%float 1%float in
  contains b nan = false /\ outside b nan = false /\
  outside b nan <> negb (contains b nan).
Proof. repeat split. discriminate. Qed.

(** C8, amended. On bounds that are unbounded, or whose two ends and the
    value tested are not NaN, [outside] is the negation of [contains];
    an unbounded [InclusiveBounds] contains every value and has none
    outside. *)
Theorem outside_negb_contains :
  forall (b : InclusiveBoundsd) (v : double),
    (valid_ b = true ->
     isnan v = false /\ isnan (minVal_ b) = false /\ isnan (maxVal_ b) = false) ->
    outside b v = negb (contains b v) /\
    (forall m M w : double,
        contains (InclusiveBounds_default m M) w = true /\
        outside (InclusiveBounds_default m M) w = false).
Proof.
  intros [[|] m M] v Hnan; split;
    try (intros; apply InclusiveBounds_default_contains); try reflexivity.
  destruct (Hnan eq_refl) as (Hv & Hm & HM).
  unfold outside, contains, gt, ge; simpl in *.
  rewrite (Binary64.ltb_negb_leb _ _ Hv Hm), (Binary64.ltb_negb_leb _ _ HM Hv).
  now rewrite negb_andb.
Qed.

Lemma outside_negb_contains_witness :
  let b : InclusiveBoundsd := InclusiveBounds_make 0%float 1%float in
  outside b 2%float = negb (contains b 2%float) /\
  (forall m M w : double,
      contains (InclusiveBounds_default m M) w = true /\
      outside (InclusiveBounds_default m M) w = false).
Proof.
  apply (outside_negb_contains (InclusiveBounds_make 0%float 1%float) 2%float).
  intros _. repeat split.
Defined.

(** C9, as stated, fails at NaN: [maxVal_ < minVal_] is false when either
    is NaN, nothing is swapped, and the bounds built from (NaN, 1) have
    [getMin() <= getMax()] false; built from (1, NaN) they are different
    bounds. *)
Lemma InclusiveBounds_make_nan_unordered :
  let b : InclusiveBoundsd := InclusiveBounds_make nan 1%float in
  to_bool b = true /\
  le (getMin b) (getMax b) = false /\
  (getMin b =? getMin (InclusiveBounds_make 1%float nan))%float = false.
Proof. repeat split. Qed.

(** The constructor sets [valid_], whatever its arguments. *)
Lemma InclusiveBounds_make_valid {T} `{Compare T} (a b : T) :
  to_bool (InclusiveBounds_make a b) = true.
Proof.
  unfold InclusiveBounds_make, to_bool; simpl.
  destruct (lt b a); reflexivity.
Qed.

(** Two numbers, neither NaN, end up in order, and the same whichever
    was given first. *)
Lemma InclusiveBounds_make_no_nan (a b : double) :
  isnan a = false -> isnan b = false ->
  le (getMin (InclusiveBounds_make a b))
     (getMax (InclusiveBounds_make a b)) = true /\
  (getMin (InclusiveBounds_make a b) =?
   getMin (InclusiveBounds_make b a))%float = true /\
  (getMax (InclusiveBounds_make a b) =?
   getMax (InclusiveBounds_make b a))%float = true.
Proof.
  intros Ha Hb. unfold InclusiveBounds_make, getMin, getMax; simpl.
  destruct (b <? a)%float eqn:Hba, (a <? b)%float eqn:Hab; simpl.
  - rewrite (Binary64.ltb_negb_leb _ _ Ha Hb) in Hab.
    rewrite (Binary64.ltb_leb _ _ Hba) in Hab. discriminate.
  - repeat split; auto using Binary64.ltb_leb, Binary64.eqb_refl.
  - repeat split; auto using Binary64.ltb_leb, Binary64.eqb_refl.
  - repeat split.
    + rewrite (Binary64.ltb_negb_leb _ _ Hb Ha) in Hba.
      now apply negb_false_iff in Hba.
    + now apply Binary64.not_ltb_eqb.
    + now apply Binary64.not_ltb_eqb.
Qed.

(** C9, amended. Bounds built from any two numbers are valid.  Built
    from two numbers, neither NaN, they have [getMin() <= getMax()]; and
    built from the same two numbers in the other order, their ends
    compare equal ([==]). *)
Theorem InclusiveBounds_make_ordered :
  forall a b : double,
    to_bool (InclusiveBounds_make a b) = true /\
    (isnan a = false -> isnan b = false ->
     le (getMin (InclusiveBounds_make a b))
        (getMax (InclusiveBounds_make a b)) = true /\
     (getMin (InclusiveBounds_make a b) =?
      getMin (InclusiveBounds_make b a))%float = true /\
     (getMax (InclusiveBounds_make a b) =?
      getMax (InclusiveBounds_make b a))%float = true).
Proof.
  intros a b. split.
  - apply InclusiveBounds_make_valid.
  - apply InclusiveBounds_make_no_nan.
Qed.

Lemma InclusiveBounds_make_ordered_witness :
  to_bool (InclusiveBounds_make 3%float 1%float) = true /\
  le (getMin (InclusiveBounds_make 3%float 1%float))
     (getMax (InclusiveBounds_make 3%float 1%float)) = true /\
  (getMin (InclusiveBounds_make 3%float 1%float) =?
   getMin (InclusiveBounds_make 1%float 3%float))%float = true /\
  (getMax (InclusiveBounds_make 3%float 1%float) =?
   getMax (InclusiveBounds_make 1%float 3%float))%float = true.
Proof.
  destruct (InclusiveBounds_make_ordered 3%float 1%float) as [Hvalid Horder].
  split; [exact Hvalid | apply Horder; reflexivity].
Defined.

(** ** XYZ::projectOntoPlane *)

(** The value [projectOntoPlane] returns, whatever the arithmetic: the
    default-constructed [ret] is overwritten in all three members. *)
Lemma projectOntoPlane_components {T} `{Arith T} (p : XYZ T) (A B C D : T) :
  let s := div (opp D) (add (add (mul A (x p)) (mul B (y p))) (mul C (z p))) in
  projectOntoPlane p A B C D = mkXYZ (mul s (x p)) (mul s (y p)) (mul s (z p)).
Proof. reflexivity. Qed.

(** *** A ray parallel to the plane *)

Module Parallel.
Import Binary64.

(** A number that is not zero, divided by a zero, is an infinity or NaN. *)
Lemma SFdiv_zero_not_finite (n d : spec_float) :
  SFis_zero d = true -> SFis_zero n = false ->
  SFis_finite (SF64div n d) = false.
Proof.
  destruct d as [sd| | |]; try discriminate. intros _.
  destruct n as [sn|sn| |sn mn en]; try discriminate; reflexivity.
Qed.

(** An infinity or NaN times anything is an infinity or NaN. *)
Lemma SFmul_not_finite (s v : spec_float) :
  SFis_finite s = false -> SFis_finite (SF64mul s v) = false.
Proof.
  destruct s as [ss|ss| |ss ms es]; try discriminate; intros _;
    destruct v as [sv|sv| |sv mv ev]; reflexivity.
Qed.

Lemma SFopp_is_zero (s : spec_float) : SFis_zero (SFopp s) = SFis_zero s.
Proof. destruct s; reflexivity. Qed.

(** The scale of [projectOntoPlane] over a zero divisor. *)
Lemma scale_not_finite (D den : double) :
  (den =? 0)%float = true -> (D =? 0)%float = false ->
  isfinite (- D / den)%float = false.
Proof.
  rewrite !eqb_zero_spec, isfinite_spec, div_spec, opp_spec.
  intros Hden HD. apply SFdiv_zero_not_finite; [exact Hden|].
  rewrite SFopp_is_zero. exact HD.
Qed.

Lemma mul_not_finite (s v : double) :
  isfinite s = false -> isfinite (s * v)%float = false.
Proof. rewrite !isfinite_spec, mul_spec. apply SFmul_not_finite. Qed.
End Parallel.

(** C3. When the divisor [A*x + B*y + C*z] comes out zero and [D] is not
    zero, every component of the point [projectOntoPlane] returns is an
    infinity or NaN; the function signals nothing. *)
Theorem projectOntoPlane_parallel_not_finite :
  forall (p : XYZ double) (A B C D : double),
    (denominator p A B C =? 0)%float = true ->
    (D =? 0)%float = false ->
    isfinite (x (projectOntoPlane p A B C D)) = false /\
    isfinite (y (projectOntoPlane p A B C D)) = false /\
    isfinite (z (projectOntoPlane p A B C D)) = false.
Proof.
  intros p A B C D Hden HD.
  pose proof (Parallel.scale_not_finite _ _ Hden HD) as Hs.
  repeat split; simpl; apply Parallel.mul_not_finite; exact Hs.
Qed.

Lemma projectOntoPlane_parallel_not_finite_witness :
  let q := projectOntoPlane (mkXYZ 0 1 0)%float 1%float 0%float 0%float 1%float in
  isfinite (x q) = false /\ isfinite (y q) = false /\ isfinite (z q) = false.
Proof.
  apply (projectOntoPlane_parallel_not_finite
           (mkXYZ 0 1 0)%float 1%float 0%float 0%float 1%float);
    reflexivity.
Defined.

(** *** The point returned *)




(** *** Projecting twice *)




(** ** XYZ::rotationAboutY *)

Section RotationAboutY.

(** [std::atan2] as the C library provides it for [double], and the value
    it returns for a quarter turn. *)
Variable atan2d : double -> double -> double.
Variable half_pi : double.

#[local] Instance Trig_libm : Trig double := Build_Trig atan2d.

(** What is assumed of it.  ISO C, F.10.1.4: [atan2 (+-0, x)] returns
    [+-0] for [x > 0], and [atan2 (y, +-0)] returns pi/2 for [y > 0].
    ISO C, 7.12.4.4: the angle of a point of the upper half plane
    ([y > 0]) is in [0, pi]. *)
Hypothesis atan2_zero :
  forall y x : double,
    (y =? 0)%float = true -> (0 <? x)%float = true -> atan2d y x = y.
Hypothesis atan2_axis :
  forall y x : double,
    (0 <? y)%float = true -> (x =? 0)%float = true -> atan2d y x = half_pi.
Hypothesis half_pi_positive : (0 <? half_pi)%float = true.
Hypothesis atan2_upper :
  forall y x : double,
    (0 <? y)%float = true -> isnan x = false ->
    (0 <=? atan2d y x)%float = true.

(** C4. [rotationAboutY] returns [atan2 (-x, -z)].  It is a zero for the
    points along the -Z axis ([x] a zero, [z] negative); it is the
    positive quarter turn on the -X axis ([x] negative, [z] a zero); and
    it is not negative wherever [x] is negative. *)
Theorem rotationAboutY_atan2 :
  forall p : XYZ double,
    rotationAboutY p = atan2d (- x p)%float (- z p)%float /\
    ((x p =? 0)%float = true -> (z p <? 0)%float = true ->
     (rotationAboutY p =? 0)%float = true) /\
    ((x p <? 0)%float = true -> (z p =? 0)%float = true ->
     rotationAboutY p = half_pi /\ (0 <? rotationAboutY p)%float = true) /\
    ((x p <? 0)%float = true -> isnan (z p) = false ->
     (0 <=? rotationAboutY p)%float = true).
Proof.
  intros [px py pz]. unfold rotationAboutY; simpl.
  split; [reflexivity|]. split; [|split].
  - intros Hx Hz.
    rewrite (atan2_zero _ _ (opp_eqb_zero _ Hx) (opp_ltb_zero _ Hz)).
    now apply opp_eqb_zero.
  - intros Hx Hz.
    rewrite (atan2_axis _ _ (opp_ltb_zero _ Hx) (opp_eqb_zero _ Hz)).
    split; [reflexivity | exact half_pi_positive].
  - intros Hx Hz. apply atan2_upper; [now apply opp_ltb_zero|].
    now rewrite opp_isnan.
Qed.
End RotationAboutY.

(** The assumptions are consistent: a function that looks at the sign of
    its first argument only satisfies them. *)
Definition atan2_by_sign (y x : double) : double :=
  if (0 <? y)%float then 0x1.921fb54442d18p+0%float
  else if (y <? 0)%float then (- 0x1.921fb54442d18p+0)%float
  else y.

Lemma atan2_by_sign_zero (y x : double) :
  (y =? 0)%float = true -> (0 <? x)%float = true -> atan2_by_sign y x = y.
Proof.
  intros Hy _. unfold atan2_by_sign.
  destruct (eqb_zero_not_ltb y Hy) as [-> ->]. reflexivity.
Qed.

Lemma atan2_by_sign_axis (y x : double) :
  (0 <? y)%float = true -> (x =? 0)%float = true ->
  atan2_by_sign y x = 0x1.921fb54442d18p+0%float.
Proof. intros Hy _. unfold atan2_by_sign. now rewrite Hy. Qed.

Lemma atan2_by_sign_upper (y x : double) :
  (0 <? y)%float = true -> isnan x = false ->
  (0 <=? atan2_by_sign y x)%float = true.
Proof. intros Hy _. unfold atan2_by_sign. now rewrite Hy. Qed.

Lemma rotationAboutY_atan2_witness :
  (@rotationAboutY double Arith_double (Trig_libm atan2_by_sign)
     (mkXYZ 0 0 (-1))%float =? 0)%float = true /\
  @rotationAboutY double Arith_double (Trig_libm atan2_by_sign)
    (mkXYZ (-1) 0 0)%float = 0x1.921fb54442d18p+0%float /\
  (0 <=? @rotationAboutY double Arith_double (Trig_libm atan2_by_sign)
           (mkXYZ (-1) 0 (-1))%float)%float = true.
Proof.
  pose proof (rotationAboutY_atan2 atan2_by_sign 0x1.921fb54442d18p+0%float
                atan2_by_sign_zero atan2_by_sign_axis eq_refl
                atan2_by_sign_upper) as Hrot.
  split; [|split].
  - destruct (Hrot (mkXYZ 0 0 (-1))%float) as (_ & Hzero & _).
    apply Hzero; reflexivity.
  - destruct (Hrot (mkXYZ (-1) 0 0)%float) as (_ & _ & Haxis & _).
    apply Haxis; reflexivity.
  - destruct (Hrot (mkXYZ (-1) 0 (-1))%float) as (_ & _ & _ & Hupper).
    apply Hupper; reflexivity.
Defined.

(** * More of the code: properties beyond the design document *)

(** ** XYZ::projectOntoPlane on binary64 *)

(** X1. A point at which the plane equation evaluates to zero, with a
    divisor that is not zero, is returned as it is, bit for bit: the
    scale comes out exactly one. *)
Theorem projectOntoPlane_on_plane_fixed :
  forall (p : XYZ double) (A B C D : double),
    (denominator p A B C =? 0)%float = false ->
    (planeEquation p A B C D =? 0)%float = true ->
    projectOntoPlane p A B C D = p.
Proof.
  intros [px py pz] A B C D Hden Hon.
  rewrite projectOntoPlane_components. cbv zeta.
  change (div (opp D) _) with (- D / denominator (mkXYZ px py pz) A B C)%float.
  rewrite (scale_on_plane_double _ _ Hden Hon).
  change (mul 1%float ?v) with (1 * v)%float.
  simpl x; simpl y; simpl z.
  rewrite !mul_one_double. reflexivity.
Qed.

Lemma projectOntoPlane_on_plane_fixed_witness :
  projectOntoPlane (mkXYZ 1 2 3)%float 2%float 3%float 4%float (-20)%float
  = (mkXYZ 1 2 3)%float.
Proof.
  apply (projectOntoPlane_on_plane_fixed
           (mkXYZ 1 2 3)%float 2%float 3%float 4%float (-20)%float);
    reflexivity.
Defined.

(** *** Projecting the eye position *)

Module Origin.
Import Binary64.

(** A zero or NaN: what the divisor is made of when the point is the
    origin. *)
Definition SFzero_or_nan (s : spec_float) : bool :=
  match s with S754_zero _ | S754_nan => true | _ => false end.

Lemma SFmul_zero (a v : spec_float) :
  SFis_zero v = true -> SFzero_or_nan (SF64mul a v) = true.
Proof.
  destruct v as [sv| | |]; try discriminate. intros _.
  destruct a as [sa|sa| |sa ma ea]; reflexivity.
Qed.

Lemma SFadd_zero_or_nan (u v : spec_float) :
  SFzero_or_nan u = true -> SFzero_or_nan v = true ->
  SFzero_or_nan (SF64add u v) = true.
Proof.
  destruct u as [[|]| | |], v as [[|]| | |]; try discriminate; reflexivity.
Qed.

Lemma SFdiv_zero_or_nan (n d : spec_float) :
  SFzero_or_nan d = true -> SFis_finite (SF64div n d) = false.
Proof.
  destruct d as [sd| | |]; try discriminate; intros _;
    destruct n as [sn|sn| |sn mn en]; reflexivity.
Qed.

Lemma SFmul_not_finite_zero (s v : spec_float) :
  SFis_finite s = false -> SFis_zero v = true ->
  SFis_nan (SF64mul s v) = true.
Proof.
  destruct v as [sv| | |]; try discriminate.
  destruct s as [ss|ss| |ss ms es]; try discriminate; reflexivity.
Qed.
End Origin.

(** X2. A point whose three coordinates are zero has no projection: the
    divisor is a zero or NaN whatever the plane, so the scale is an
    infinity or NaN, and its product with a zero coordinate is NaN, in
    all three components. *)
Theorem projectOntoPlane_origin_nan :
  forall (p : XYZ double) (A B C D : double),
    (x p =? 0)%float = true -> (y p =? 0)%float = true ->
    (z p =? 0)%float = true ->
    isnan (x (projectOntoPlane p A B C D)) = true /\
    isnan (y (projectOntoPlane p A B C D)) = true /\
    isnan (z (projectOntoPlane p A B C D)) = true.
Proof.
  intros [px py pz] A B C D; simpl x; simpl y; simpl z.
  rewrite !Binary64.eqb_zero_spec. intros Hx Hy Hz.
  assert (Hs : Binary64.SFis_finite
                 (Prim2SF (- D / denominator (mkXYZ px py pz) A B C)%float)
               = false).
  { rewrite div_spec. apply Origin.SFdiv_zero_or_nan.
    unfold denominator; simpl. rewrite !add_spec, !mul_spec.
    repeat apply Origin.SFadd_zero_or_nan; now apply Origin.SFmul_zero. }
  unfold projectOntoPlane, set_x, set_y, set_z; simpl.
  rewrite !Binary64.isnan_spec, !mul_spec.
  repeat split; now apply Origin.SFmul_not_finite_zero.
Qed.

Lemma projectOntoPlane_origin_nan_witness :
  let q := projectOntoPlane (@XYZ_default double _)
                            1%float 2%float 3%float 4%float in
  isnan (x q) = true /\ isnan (y q) = true /\ isnan (z q) = true.
Proof.
  apply (projectOntoPlane_origin_nan XYZ_default 1%float 2%float 3%float 4%float);
    reflexivity.
Defined.

(** ** XYZ::distanceFrom on binary64 *)

(** X3. The distance is the same in both directions, bit for bit: the two
    differences of a coordinate differ at most in sign, and rounding and
    squaring do not see the sign. *)
Theorem distanceFrom_symmetric :
  forall a p : XYZ double, distanceFrom a p = distanceFrom p a.
Proof.
  intros [ax ay az] [px py pz]. unfold distanceFrom; simpl.
  rewrite (Distance.square_sub_swap ax px), (Distance.square_sub_swap ay py),
    (Distance.square_sub_swap az pz).
  reflexivity.
Qed.

Lemma sqrt_not_negative (r : double) :
  (PrimFloat.sqrt r <? 0)%float = false /\
  (isnan (PrimFloat.sqrt r) = true \/ (0 <=? PrimFloat.sqrt r)%float = true).
Proof.
  pose proof (Distance.SFsqrt_not_negative (Prim2SF r)) as Hneg.
  split.
  - rewrite ltb_spec, sqrt_spec.
    change (Prim2SF 0%float) with (S754_zero false).
    now rewrite Distance.SFltb_zero.
  - destruct (isnan (PrimFloat.sqrt r)) eqn:Hnan; [now left | right].
    rewrite Binary64.isnan_spec in Hnan.
    rewrite leb_spec. change (Prim2SF 0%float) with (S754_zero false).
    apply Distance.SFleb_zero; [exact Hnan|]. now rewrite sqrt_spec.
Qed.

(** X4. The distance is never below zero: it is NaN, or it compares
    greater than or equal to zero. *)
Theorem distanceFrom_not_negative :
  forall a p : XYZ double,
    (distanceFrom a p <? 0)%float = false /\
    (isnan (distanceFrom a p) = true \/ (0 <=? distanceFrom a p)%float = true).
Proof. intros a p. unfold distanceFrom. apply sqrt_not_negative. Qed.

(** A finite number minus itself is zero. *)
Lemma sub_diag_double (v : double) :
  isfinite v = true -> (v - v)%float = 0%float.
Proof.
  rewrite Binary64.isfinite_spec. intros Hfin.
  apply Prim2SF_inj. rewrite sub_spec.
  change (Prim2SF 0%float) with (S754_zero false).
  destruct (Prim2SF v) as [[|]|sv| |sv mv ev]; try discriminate;
    try reflexivity.
  unfold SF64sub, SFsub. rewrite Z.sub_diag. reflexivity.
Qed.

(** X5. A point is at distance zero from itself when its coordinates are
    finite. *)
Theorem distanceFrom_self :
  forall p : XYZ double,
    isfinite (x p) = true -> isfinite (y p) = true -> isfinite (z p) = true ->
    distanceFrom p p = 0%float.
Proof.
  intros [px py pz]; simpl x; simpl y; simpl z. intros Hx Hy Hz.
  unfold distanceFrom; simpl.
  rewrite (sub_diag_double _ Hx), (sub_diag_double _ Hy), (sub_diag_double _ Hz).
  reflexivity.
Qed.

Lemma distanceFrom_self_witness :
  distanceFrom (mkXYZ 1 2 3)%float (mkXYZ 1 2 3)%float = 0%float.
Proof.
  apply (distanceFrom_self (mkXYZ 1 2 3)%float); reflexivity.
Defined.

(** ** InclusiveBounds<double>, NaN included *)

Module Order.
Import Binary64.

Lemma ltb_true_leb_false (a b : double) :
  (a <? b)%float = true -> (b <=? a)%float = false.
Proof.
  rewrite ltb_spec, leb_spec. unfold SFltb, SFleb.
  rewrite (SFcompare_antisym (Prim2SF a) (Prim2SF b)).
  destruct (SFcompare (Prim2SF a) (Prim2SF b)) as [[| |]|];
    simpl; congruence.
Qed.

Lemma leb_refl (a : double) : isnan a = false -> (a <=? a)%float = true.
Proof.
  rewrite isnan_spec, leb_spec. intros Ha. unfold SFleb.
  now rewrite SFcompare_refl.
Qed.

Lemma leb_nan_l (a v : double) : isnan a = true -> (a <=? v)%float = false.
Proof.
  rewrite isnan_spec, leb_spec. destruct (Prim2SF a); try discriminate.
  reflexivity.
Qed.

Lemma leb_nan_r (a v : double) : isnan a = true -> (v <=? a)%float = false.
Proof.
  rewrite isnan_spec, leb_spec. destruct (Prim2SF a); try discriminate.
  intros _. destruct (Prim2SF v) as [[|]|[|]| |[|] m e]; reflexivity.
Qed.

Lemma ltb_nan_l (a v : double) : isnan a = true -> (a <? v)%float = false.
Proof.
  rewrite isnan_spec, ltb_spec. destruct (Prim2SF a); try discriminate.
  reflexivity.
Qed.

Lemma ltb_nan_r (a v : double) : isnan a = true -> (v <? a)%float = false.
Proof.
  rewrite isnan_spec, ltb_spec. destruct (Prim2SF a); try discriminate.
  intros _. destruct (Prim2SF v) as [[|]|[|]| |[|] m e]; reflexivity.
Qed.

(** Numbers that compare equal are the same number, or two zeros. *)
Lemma SFcompare_Eq (s t : spec_float) :
  SFcompare s t = Some Eq -> s = t \/ (SFis_zero s = true /\ SFis_zero t = true).
Proof.
  destruct s as [[|]|[|]| |[|] m e], t as [[|]|[|]| |[|] m' e'];
    simpl; intros Hc; try discriminate; auto;
    destruct (e ?= e')%Z eqn:He; try discriminate;
    apply Z.compare_eq in He; subst e'; left;
    assert (Hm : Pos.compare_cont Eq m m' = Eq)
      by (destruct (Pos.compare_cont Eq m m'); simpl in Hc; congruence);
    apply Pos.compare_eq in Hm; now subst m'.
Qed.

Lemma SFcompare_zero_l (s s' : bool) (t : spec_float) :
  SFcompare (S754_zero s) t = SFcompare (S754_zero s') t.
Proof. destruct t as [[|]|[|]| |[|] m e]; reflexivity. Qed.

Lemma SFcompare_zero_r (s s' : bool) (t : spec_float) :
  SFcompare t (S754_zero s) = SFcompare t (S754_zero s').
Proof. destruct t as [[|]|[|]| |[|] m e]; reflexivity. Qed.

(** What compares equal compares alike with everything else. *)
Lemma eqb_leb_l (a b v : double) :
  (a =? b)%float = true -> (a <=? v)%float = (b <=? v)%float.
Proof.
  rewrite eqb_spec, !leb_spec. unfold SFeqb, SFleb.
  destruct (SFcompare (Prim2SF a) (Prim2SF b)) as [[| |]|] eqn:Hc;
    try discriminate. intros _.
  destruct (SFcompare_Eq _ _ Hc) as [->|[Ha Hb]]; [reflexivity|].
  destruct (Prim2SF a) as [sa| | |]; try discriminate.
  destruct (Prim2SF b) as [sb| | |]; try discriminate.
  now rewrite (SFcompare_zero_l sa sb).
Qed.

Lemma eqb_leb_r (a b v : double) :
  (a =? b)%float = true -> (v <=? a)%float = (v <=? b)%float.
Proof.
  rewrite eqb_spec, !leb_spec. unfold SFeqb, SFleb.
  destruct (SFcompare (Prim2SF a) (Prim2SF b)) as [[| |]|] eqn:Hc;
    try discriminate. intros _.
  destruct (SFcompare_Eq _ _ Hc) as [->|[Ha Hb]]; [reflexivity|].
  destruct (Prim2SF a) as [sa| | |]; try discriminate.
  destruct (Prim2SF b) as [sb| | |]; try discriminate.
  now rewrite (SFcompare_zero_r sa sb).
Qed.
End Order.

Lemma contains_not_outside (b : InclusiveBoundsd) (v : double) :
  contains b v && outside b v = false.
Proof.
  revert b v. intros [[|] m M] v; unfold contains, outside, ge, gt; simpl;
    [|reflexivity].
  destruct (v <? m)%float eqn:Hm.
  - now rewrite (Order.ltb_true_leb_false _ _ Hm).
  - destruct (M <? v)%float eqn:HM; simpl.
    + rewrite (Order.ltb_true_leb_false _ _ HM).
      destruct (m <=? v)%float; reflexivity.
    + apply andb_false_r.
Qed.

(** X6. No value is both contained and outside, whatever the bounds and
    the value, NaN included. *)
Theorem contains_outside_exclusive :
  forall (b : InclusiveBoundsd) (v : double),
    contains b v && outside b v = false.
Proof. exact contains_not_outside. Qed.

(** X7. What bounds contain does not depend on the order in which their
    two ends were given to the constructor, for any two ends and any
    value, NaN and the two zeros included. *)
Theorem contains_make_order :
  forall a b v : double,
    contains (InclusiveBounds_make a b) v
    = contains (InclusiveBounds_make b a) v.
Proof.
  intros a b v. unfold InclusiveBounds_make, contains, ge; simpl.
  destruct (b <? a)%float eqn:Hba, (a <? b)%float eqn:Hab; simpl;
    try reflexivity.
  - pose proof (Order.ltb_true_leb_false _ _ Hba) as Hgt.
    pose proof (Binary64.ltb_leb _ _ Hab) as Hle. congruence.
  - destruct (isnan a) eqn:Ha.
    { now rewrite (Order.leb_nan_l a v Ha), (Order.leb_nan_r a v Ha),
        andb_false_r. }
    destruct (isnan b) eqn:Hb.
    { now rewrite (Order.leb_nan_l b v Hb), (Order.leb_nan_r b v Hb),
        andb_false_r. }
    pose proof (Binary64.not_ltb_eqb a b Ha Hb Hab Hba) as Heq.
    rewrite (Order.eqb_leb_l a b v Heq), (Order.eqb_leb_r a b v Heq).
    reflexivity.
Qed.

(** X8. Bounds are inclusive: built from two numbers, neither NaN, they
    contain both of them and have neither outside. *)
Theorem contains_ends :
  forall a b : double,
    isnan a = false -> isnan b = false ->
    contains (InclusiveBounds_make a b) a = true /\
    contains (InclusiveBounds_make a b) b = true /\
    outside (InclusiveBounds_make a b) a = false /\
    outside (InclusiveBounds_make a b) b = false.
Proof.
  intros a b Ha Hb.
  assert (Hin : contains (InclusiveBounds_make a b) a = true /\
                contains (InclusiveBounds_make a b) b = true).
  { unfold InclusiveBounds_make, contains, ge; simpl.
    destruct (b <? a)%float eqn:Hba; simpl.
    - rewrite (Binary64.ltb_leb _ _ Hba), !Order.leb_refl by assumption.
      split; reflexivity.
    - rewrite (Binary64.ltb_negb_leb _ _ Hb Ha) in Hba.
      apply negb_false_iff in Hba.
      rewrite Hba, !Order.leb_refl by assumption. split; reflexivity. }
  destruct Hin as [Hina Hinb]. repeat split; try assumption.
  - pose proof (contains_not_outside (InclusiveBounds_make a b) a) as He.
    rewrite Hina in He. exact He.
  - pose proof (contains_not_outside (InclusiveBounds_make a b) b) as He.
    rewrite Hinb in He. exact He.
Qed.

Lemma contains_ends_witness :
  contains (InclusiveBounds_make 3%float 1%float) 3%float = true /\
  contains (InclusiveBounds_make 3%float 1%float) 1%float = true /\
  outside (InclusiveBounds_make 3%float 1%float) 3%float = false /\
  outside (InclusiveBounds_make 3%float 1%float) 1%float = false.
Proof. apply (contains_ends 3%float 1%float); reflexivity. Defined.

(** X9. Bounds built with NaN for an end are valid and contain nothing:
    not even NaN. *)
Theorem contains_nan_end :
  forall a b v : double,
    isnan a = true \/ isnan b = true ->
    to_bool (InclusiveBounds_make a b) = true /\
    contains (InclusiveBounds_make a b) v = false.
Proof.
  intros a b v Hnan.
  assert (Hlt : (b <? a)%float = false).
  { destruct Hnan as [Ha|Hb];
      [apply Order.ltb_nan_r | apply Order.ltb_nan_l]; assumption. }
  unfold InclusiveBounds_make, to_bool, contains, ge; simpl.
  rewrite Hlt; simpl. split; [reflexivity|].
  destruct Hnan as [Ha|Hb].
  - now rewrite (Order.leb_nan_l a v Ha).
  - rewrite (Order.leb_nan_r b v Hb). apply andb_false_r.
Qed.

Lemma contains_nan_end_witness :
  to_bool (InclusiveBounds_make nan 1%float) = true /\
  contains (InclusiveBounds_make nan 1%float) 0%float = false.
Proof.
  apply (contains_nan_end nan 1%float 0%float). left. reflexivity.
Defined.

(** ** InclusiveBounds at an integer type *)

Lemma InclusiveBounds_make_Z (lo hi : Z) :
  InclusiveBounds_make lo hi
  = mkInclusiveBounds true (Z.min lo hi) (Z.max lo hi).
Proof.
  unfold InclusiveBounds_make; simpl.
  destruct (Z.ltb_spec hi lo); f_equal; lia.
Qed.

(** X10. On integers, where every two values compare, [outside] is the
    negation of [contains]; the constructor gives the same bounds for
    both orders of its arguments, from the smaller to the larger; and
    the bounds contain exactly the values between the two. *)
Theorem InclusiveBounds_Z :
  forall (b : InclusiveBounds Z) (lo hi v : Z),
    outside b v = negb (contains b v) /\
    InclusiveBounds_make lo hi = InclusiveBounds_make hi lo /\
    getMin (InclusiveBounds_make lo hi) = Z.min lo hi /\
    getMax (InclusiveBounds_make lo hi) = Z.max lo hi /\
    (contains (InclusiveBounds_make lo hi) v = true <->
     (Z.min lo hi <= v <= Z.max lo hi)%Z).
Proof.
  intros b lo hi v. rewrite !InclusiveBounds_make_Z. split; [|split; [|split; [|split]]].
  - destruct b as [[|] m M]; unfold outside, contains, gt, ge; simpl;
      [|reflexivity].
    destruct (Z.ltb_spec v m), (Z.ltb_spec M v), (Z.leb_spec m v),
      (Z.leb_spec v M); simpl; try reflexivity; lia.
  - now rewrite Z.min_comm, Z.max_comm.
  - reflexivity.
  - reflexivity.
  - unfold contains, ge; simpl. rewrite andb_true_iff, !Z.leb_le. reflexivity.
Qed.

(** ** toEigen and toXYZ *)

(** X15. Converting a point to an Eigen vector and back, or a vector to a
    point and back, gives the same coordinates, bit for bit. *)
Theorem toXYZ_toEigen :
  forall (p : XYZ double) (v : Vector3d),
    toXYZ (toEigen p) = p /\ toEigen (toXYZ v) = v.
Proof. intros [px py pz] [a b c]. split; reflexivity. Qed.

(** ** The origin of a measurement *)

(** X16. The measurements of one collection are known or unknown
    together, as the collection has a source name or not; and two of
    them have the same origin exactly when they are of the same line.
    The same holds of normalized measurements. *)
Theorem getOrigin_of_parent :
  forall (m1 m2 : InputMeasurement.t) (parent : InputMeasurements.t)
         (n1 n2 : NormalizedMeasurement.t) (nparent : NormalizedMeasurements.t),
    (known (InputMeasurement_getOrigin m1 parent)
     = negb (empty (InputMeasurements.inputSource parent)) /\
     (InputMeasurement_getOrigin m1 parent = InputMeasurement_getOrigin m2 parent
      <-> InputMeasurement.lineNumber m1 = InputMeasurement.lineNumber m2)) /\
    (known (NormalizedMeasurement_getOrigin n1 nparent)
     = negb (empty (NormalizedMeasurements.inputSource nparent)) /\
     (NormalizedMeasurement_getOrigin n1 nparent
      = NormalizedMeasurement_getOrigin n2 nparent
      <-> NormalizedMeasurement.lineNumber n1
          = NormalizedMeasurement.lineNumber n2)).
Proof.
  intros m1 m2 parent n1 n2 nparent.
  unfold InputMeasurement_getOrigin, NormalizedMeasurement_getOrigin.
  repeat split; try (intros Heq; injection Heq; auto);
    intros ->; reflexivity.
Qed.

(** ** Stream insertion *)

Section Strings.
Local Open Scope string_scope.

Lemma append_nil_r (s : string) : s ++ EmptyString = s.
Proof. induction s as [|c s IH]; simpl; [reflexivity | now rewrite IH]. Qed.

Lemma append_assoc (s t u : string) : (s ++ t) ++ u = s ++ t ++ u.
Proof. induction s as [|c s IH]; simpl; [reflexivity | now rewrite IH]. Qed.

Lemma append_inv_head (s t u : string) : s ++ t = s ++ u -> t = u.
Proof.
  induction s as [|c s IH]; simpl; intros Heq; [exact Heq|].
  injection Heq as Heq. now apply IH.
Qed.

Lemma length_append (s t : string) :
  String.length (s ++ t) = String.length s + String.length t.
Proof. induction s as [|c s IH]; simpl; [reflexivity | now rewrite IH]. Qed.

Lemma length_fill_n (n : nat) (c : ascii) : String.length (fill_n n c) = n.
Proof. induction n as [|n IH]; simpl; [reflexivity | now rewrite IH]. Qed.

(** Does the character occur in the string? *)
Fixpoint has_char (c : ascii) (s : string) : bool :=
  match s with
  | EmptyString => false
  | String d s' => Ascii.eqb c d || has_char c s'
  end.

Lemma has_char_append (c : ascii) (s t : string) :
  has_char c (s ++ t) = has_char c s || has_char c t.
Proof.
  induction s as [|d s IH]; simpl; [reflexivity|].
  now rewrite IH, orb_assoc.
Qed.

(** A padded field is as long as the wider of the width and the text. *)
Lemma length_padded (os : ostream) (s : string) :
  String.length (padded os s) = Nat.max (width os) (String.length s).
Proof.
  unfold padded. destruct (adjust_left os);
    rewrite length_append, length_fill_n; lia.
Qed.

(** On a stream of width zero nothing is padded. *)
Lemma padded_width_0 (os : ostream) (s : string) :
  width os = 0 -> padded os s = s.
Proof.
  unfold padded. intros ->. simpl.
  destruct (adjust_left os); [apply append_nil_r | reflexivity].
Qed.

Lemma insert_width_0 (os : ostream) (s : string) :
  width os = 0 ->
  insert os s = mkostream (buffer os ++ s) 0 (fill os) (adjust_left os).
Proof. intros Hw. unfold insert. now rewrite padded_width_0. Qed.

(** The decimal digits of a number. *)
Definition decimal (n : N) : string :=
  NilEmpty.string_of_uint (N.to_uint n).

Lemma string_of_uint_no_colon (d : Decimal.uint) :
  has_char (ascii_of_nat 58) (NilEmpty.string_of_uint d) = false.
Proof. induction d; simpl; try rewrite IHd; reflexivity. Qed.

Lemma decimal_inj (n m : N) : decimal n = decimal m -> n = m.
Proof.
  unfold decimal. intros Heq.
  apply (f_equal NilEmpty.uint_of_string) in Heq.
  rewrite !NilEmpty.usu in Heq. injection Heq as Heq.
  now apply Unsigned.to_uint_inj.
Qed.

(** Two texts cut at their last colon agree on both sides of it. *)
Lemma split_last_colon (s1 s2 t1 t2 : string) :
  has_char (ascii_of_nat 58) t1 = false ->
  has_char (ascii_of_nat 58) t2 = false ->
  s1 ++ colon ++ t1 = s2 ++ colon ++ t2 -> s1 = s2 /\ t1 = t2.
Proof.
  intros Ht1 Ht2. revert s2.
  induction s1 as [|c s1 IH]; intros [|d s2] Heq; simpl in Heq.
  - injection Heq as Heq. now split.
  - injection Heq as Hc Heq. subst t1.
    rewrite has_char_append in Ht1. unfold colon in Ht1. simpl in Ht1.
    rewrite orb_true_r in Ht1. discriminate.
  - injection Heq as Hc Heq. subst t2.
    rewrite has_char_append in Ht2. unfold colon in Ht2. simpl in Ht2.
    rewrite orb_true_r in Ht2. discriminate.
  - injection Heq as Hc Heq. subst d.
    destruct (IH s2 Heq) as [-> ->]. now split.
Qed.
End Strings.

Section Inserters.
Local Open Scope string_scope.

(** The text of an origin: source and line joined by a colon, or the
    fixed text of an unknown origin. *)
Definition DataOrigin_text (orig : DataOrigin) : string :=
  if known orig
  then inputSource orig ++ colon ++ decimal (lineNumber orig)
  else unknown_text.

Lemma DataOrigin_text_known_colon (orig : DataOrigin) :
  known orig = true -> has_char (ascii_of_nat 58) (DataOrigin_text orig) = true.
Proof.
  unfold DataOrigin_text. intros ->.
  rewrite !has_char_append. unfold colon; simpl. apply orb_true_r.
Qed.

(** X17. Inserting an origin into a stream is one formatted insertion of
    its whole text: source, colon and line number are padded together to
    the stream's width, which is reset to zero.  The text is that of an
    unknown origin exactly when the origin is unknown. *)
Theorem insert_DataOrigin_one_field :
  forall (os : ostream) (orig : DataOrigin),
    insert_DataOrigin os orig = insert os (DataOrigin_text orig) /\
    width (insert_DataOrigin os orig) = 0 /\
    String.length (buffer (insert_DataOrigin os orig))
    = String.length (buffer os)
      + Nat.max (width os) (String.length (DataOrigin_text orig)) /\
    (DataOrigin_text orig = unknown_text <-> known orig = false).
Proof.
  intros os orig.
  assert (Hone : insert_DataOrigin os orig = insert os (DataOrigin_text orig)).
  { unfold insert_DataOrigin, DataOrigin_text, insert_size_t, decimal.
    destruct (known orig); [|reflexivity].
    cbv zeta. unfold ostringstream.
    rewrite !(insert_width_0 (mkostream _ 0 _ _)) by reflexivity. simpl.
    now rewrite append_assoc. }
  rewrite Hone. split; [reflexivity|]. split; [reflexivity|]. split.
  - simpl. now rewrite length_append, length_padded.
  - split.
    + intros Htext. destruct (known orig) eqn:Hk; [|reflexivity].
      pose proof (DataOrigin_text_known_colon orig Hk) as Hc.
      rewrite Htext in Hc. discriminate.
    + unfold DataOrigin_text. now intros ->.
Qed.

Lemma insert_DataOrigin_text (os : ostream) (orig : DataOrigin) :
  insert_DataOrigin os orig = insert os (DataOrigin_text orig).
Proof.
  unfold insert_DataOrigin, DataOrigin_text, insert_size_t, decimal.
  destruct (known orig); [|reflexivity].
  cbv zeta. unfold ostringstream.
  rewrite !(insert_width_0 (mkostream _ 0 _ _)) by reflexivity. simpl.
  now rewrite append_assoc.
Qed.

(** X18. On a stream of width zero, what [operator<<] writes for a known
    origin tells which origin it is: two known origins that leave the
    same characters in the stream have the same source and the same
    line, even when a source name has colons or digits of its own. *)
Theorem insert_DataOrigin_injective :
  forall (os : ostream) (d1 d2 : DataOrigin),
    width os = 0 ->
    known d1 = true -> known d2 = true ->
    buffer (insert_DataOrigin os d1) = buffer (insert_DataOrigin os d2) ->
    d1 = d2.
Proof.
  intros os [s1 n1] [s2 n2] Hw Hk1 Hk2.
  rewrite !insert_DataOrigin_text. simpl buffer.
  rewrite !padded_width_0 by exact Hw. intros Heq.
  apply append_inv_head in Heq. revert Heq. unfold DataOrigin_text.
  rewrite Hk1, Hk2. simpl. intros Heq.
  apply split_last_colon in Heq; try apply string_of_uint_no_colon.
  destruct Heq as [-> Hn]. apply decimal_inj in Hn. now subst n2.
Qed.

Lemma insert_DataOrigin_injective_witness :
  mkDataOrigin "a:1" 2 = mkDataOrigin "a:1" 2.
Proof.
  apply (insert_DataOrigin_injective
           (mkostream "at " 0 (ascii_of_nat 32) false)
           (mkDataOrigin "a:1" 2) (mkDataOrigin "a:1" 2));
    reflexivity.
Defined.

Variable T : Type.
Variable format : T -> string.

(** The text of bounds: the two ends between brackets, or the word for
    none. *)
Definition InclusiveBounds_text (bounds : InclusiveBounds T) : string :=
  "[" ++ (if valid_ bounds
          then format (minVal_ bounds) ++ ", " ++ format (maxVal_ bounds)
          else "unbounded") ++ "]".

Lemma insert_InclusiveBounds_text (os : ostream) (bounds : InclusiveBounds T) :
  insert_InclusiveBounds format os bounds
  = insert os (InclusiveBounds_text bounds).
Proof.
  unfold insert_InclusiveBounds, InclusiveBounds_text.
  destruct (valid_ bounds); cbv zeta; unfold ostringstream;
    rewrite !(insert_width_0 (mkostream _ 0 _ _)) by reflexivity; simpl;
    rewrite ?append_assoc; reflexivity.
Qed.

(** X19. Inserting bounds is one formatted insertion of their text, and
    the text is that of unbounded bounds exactly when the bounds are not
    valid, however the ends are formatted. *)
Theorem insert_InclusiveBounds_one_field :
  forall (os : ostream) (bounds : InclusiveBounds T),
    insert_InclusiveBounds format os bounds
    = insert os (InclusiveBounds_text bounds) /\
    width (insert_InclusiveBounds format os bounds) = 0 /\
    (InclusiveBounds_text bounds = "[unbounded]" <-> to_bool bounds = false).
Proof.
  intros os bounds. rewrite insert_InclusiveBounds_text.
  split; [reflexivity|]. split; [reflexivity|].
  unfold InclusiveBounds_text, to_bool. destruct (valid_ bounds).
  - split; [|discriminate]. intros Htext.
    apply (f_equal (has_char (ascii_of_nat 44))) in Htext.
    simpl in Htext. rewrite !has_char_append in Htext. simpl in Htext.
    rewrite orb_true_r in Htext. discriminate.
  - split; reflexivity.
Qed.

(** The text of a pair of bounds, as the inserter assembles it. *)
Definition XYInclusiveBounds_text (xyBounds : XYInclusiveBounds T) : string :=
  if negb (XY_to_bool xyBounds) then "unbounded"
  else
    (if valid_ (xBounds xyBounds)
     then "x: " ++ InclusiveBounds_text (xBounds xyBounds) else EmptyString)
    ++ (if valid_ (xBounds xyBounds) && valid_ (yBounds xyBounds)
        then ", " else EmptyString)
    ++ (if valid_ (yBounds xyBounds)
        then "y: " ++ InclusiveBounds_text (yBounds xyBounds) else EmptyString).

(** X20. On a stream of width zero, inserting a pair of bounds appends
    its text and nothing else; the text is the bare word for unbounded
    exactly when neither axis is bounded. *)
Theorem insert_XYInclusiveBounds_text :
  forall (os : ostream) (xyBounds : XYInclusiveBounds T),
    width os = 0 ->
    buffer (insert_XYInclusiveBounds format os xyBounds)
    = buffer os ++ XYInclusiveBounds_text xyBounds /\
    (XYInclusiveBounds_text xyBounds = "unbounded"
     <-> XY_to_bool xyBounds = false).
Proof.
  intros os [[vx mx Mx] [vy my My]] Hw. split.
  - unfold insert_XYInclusiveBounds, XYInclusiveBounds_text, XY_to_bool.
    simpl valid_. rewrite !insert_InclusiveBounds_text.
    destruct vx, vy; simpl negb; cbv iota; simpl andb; cbv iota;
      rewrite ?insert_width_0 by (assumption || reflexivity);
      simpl buffer; rewrite ?append_assoc, ?append_nil_r; reflexivity.
  - unfold XYInclusiveBounds_text, XY_to_bool. simpl valid_.
    destruct vx, vy; simpl; split; try reflexivity; discriminate.
Qed.
End Inserters.

Lemma insert_XYInclusiveBounds_text_witness :
  buffer (insert_XYInclusiveBounds decimal
            (mkostream "bounds " 0 (ascii_of_nat 32) false)
            (mkXYInclusiveBounds (mkInclusiveBounds true 1%N 2%N)
                                 (mkInclusiveBounds false 0%N 0%N)))
  = "bounds x: [1, 2]"%string.
Proof.
  apply (insert_XYInclusiveBounds_text N decimal
           (mkostream "bounds " 0 (ascii_of_nat 32) false)
           (mkXYInclusiveBounds
              (mkInclusiveBounds true 1%N 2%N)
              (mkInclusiveBounds false 0%N 0%N))).
  reflexivity.
Defined.

(** ** XYZ::projectOntoPlane: a point and its mirror image *)

(** X21. A point and its mirror image through the origin project to the
    same point, bit for bit, when the divisor is not zero: nothing looks
    at whether the plane is in front of the point or behind it. *)
Theorem projectOntoPlane_mirror :
  forall (p : XYZ double) (A B C D : double),
    (denominator p A B C =? 0)%float = false ->
    projectOntoPlane (mkXYZ (- x p) (- y p) (- z p))%float A B C D
    = projectOntoPlane p A B C D.
Proof.
  intros [px py pz] A B C D Hden. simpl x; simpl y; simpl z.
  rewrite Binary64.eqb_zero_spec in Hden.
  assert (Hopp : Prim2SF (denominator (mkXYZ (- px) (- py) (- pz))%float A B C)
                 = SFopp (Prim2SF (denominator (mkXYZ px py pz) A B C))).
  { assert (Ho : Mirror.opposite
                   (Prim2SF (denominator (mkXYZ px py pz) A B C))
                   (Prim2SF (denominator (mkXYZ (- px) (- py) (- pz))%float
                                         A B C))).
    { unfold denominator; simpl. rewrite !add_spec, !mul_spec, !opp_spec.
      repeat apply Mirror.SFadd_opposite; left; apply Mirror.SFmul_opp_r. }
    destruct Ho as [Ho|[Hz _]]; [exact Ho | congruence]. }
  assert (Hs : (- D / denominator (mkXYZ (- px) (- py) (- pz)) A B C)%float
               = (- (- D / denominator (mkXYZ px py pz) A B C))%float).
  { apply Prim2SF_inj. rewrite div_spec, Hopp, Mirror.SFdiv_opp_r.
    rewrite (opp_spec (_ / _)%float), div_spec. reflexivity. }
  rewrite !projectOntoPlane_components. cbv zeta. simpl x; simpl y; simpl z.
  change (div (opp D) ?d) with (- D / d)%float.
  change (add (add (mul A ?a) (mul B ?b)) (mul C ?c))
    with (denominator (mkXYZ a b c) A B C).
  rewrite Hs. simpl mul. rewrite !mul_opp_opp_double. reflexivity.
Qed.

Lemma projectOntoPlane_mirror_witness :
  projectOntoPlane (mkXYZ (- 1) (- 1) (- -1))%float 0%float 0%float 1%float 2%float
  = projectOntoPlane (mkXYZ 1 1 (-1))%float 0%float 0%float 1%float 2%float.
Proof.
  apply (projectOntoPlane_mirror (mkXYZ 1 1 (-1))%float
                                 0%float 0%float 1%float 2%float).
  reflexivity.
Defined.

(** ** InclusiveBounds: the constructor's result needs no swap *)

(** X22. Bounds that the constructor built are what the constructor
    builds again from their own two ends, whatever the arguments were,
    NaN included: after construction [maxVal_ < minVal_] is false. *)
Theorem InclusiveBounds_make_fixed :
  forall a b : double,
    (maxVal_ (InclusiveBounds_make a b) <? minVal_ (InclusiveBounds_make a b))%float
    = false /\
    InclusiveBounds_make (getMin (InclusiveBounds_make a b))
                         (getMax (InclusiveBounds_make a b))
    = InclusiveBounds_make a b.
Proof.
  intros a b.
  assert (Hlt : (maxVal_ (InclusiveBounds_make a b)
                 <? minVal_ (InclusiveBounds_make a b))%float = false).
  { unfold InclusiveBounds_make; simpl.
    destruct (b <? a)%float eqn:Hba; simpl; [|exact Hba].
    destruct (a <? b)%float eqn:Hab; [|reflexivity].
    pose proof (Order.ltb_true_leb_false _ _ Hba) as Hgt.
    pose proof (Binary64.ltb_leb _ _ Hab) as Hle. congruence. }
  split; [exact Hlt|].
  unfold getMin, getMax.
  unfold InclusiveBounds_make at 1. simpl. rewrite Hlt.
  unfold InclusiveBounds_make. simpl.
  destruct (b <? a)%float; reflexivity.
Qed.
